(** * The complaint classification pipeline of [classifier.py] and [validator.py]

    A shallow embedding of the pipeline
    sanitize -> prompt -> model gateway -> JSON extraction -> schema validation
    -> confidence floor -> keyword overrides -> plain result,
    with the fallback taken on any failure.

    Text is a [string] whose characters are the code points U+0000 .. U+00FF,
    one [ascii] per character; on that range [isspace], [isdecimal] and
    [lower_char] are Python's own tables.  A Python [float] is a binary64
    [PrimFloat.float].  An exception is a value of [error] in the [result]
    monad, and what is printed is returned as a list of [log_event].  The
    response object, which the code updates in place, is a record updated
    field by field.  What the process reaches outside the repository (the
    HTTP endpoint, [json.loads], pydantic's parser of numeric strings) is the
    interface [Runtime]; every theorem holds for every instance of it. *)

From Stdlib Require Import String Ascii List ZArith NArith Bool Lia.
From Stdlib Require Import PrimFloat SpecFloat FloatOps.
Import ListNotations.

#[local] Set Warnings "-inexact-float".

Open Scope list_scope.
Open Scope string_scope.

(** ** Python strings *)

Definition ord (c : ascii) : N := N_of_ascii c.
Definition chr (n : N) : ascii := ascii_of_N n.

Definition between (lo hi n : N) : bool := ((lo <=? n) && (n <=? hi))%N.

(** [str.isspace] on one character, also the class [\s] of [re]. *)
Definition isspace (c : ascii) : bool :=
  let n := ord c in
  between 9 13 n || between 28 31 n || (n =? 32)%N || (n =? 133)%N || (n =? 160)%N.

(** The class [\d] of [re]. *)
Definition isdecimal (c : ascii) : bool := between 48 57 (ord c).

(** The class [.] under [re.DOTALL]. *)
Definition anychar (_ : ascii) : bool := true.

Definition is_char (a : ascii) (c : ascii) : bool := Ascii.eqb a c.

Definition lower_char (c : ascii) : ascii :=
  let n := ord c in
  if between 65 90 n || (between 192 222 n && negb (n =? 215)%N)
  then chr (n + 32)
  else c.

(** [str.lower] *)
Fixpoint lower (s : string) : string :=
  match s with
  | EmptyString => EmptyString
  | String c s' => String (lower_char c) (lower s')
  end.

Fixpoint lstrip (s : string) : string :=
  match s with
  | EmptyString => EmptyString
  | String c s' => if isspace c then lstrip s' else s
  end.

Fixpoint rstrip (s : string) : string :=
  match s with
  | EmptyString => EmptyString
  | String c s' =>
      match rstrip s' with
      | EmptyString => if isspace c then EmptyString else String c EmptyString
      | r => String c r
      end
  end.

(** [str.strip()] *)
Definition strip (s : string) : string := rstrip (lstrip s).

(** The slice [s[:n]] *)
Fixpoint slice_to (n : nat) (s : string) : string :=
  match n, s with
  | S n', String c s' => String c (slice_to n' s')
  | _, _ => EmptyString
  end.

(** [w in s] on strings *)
Fixpoint str_in (w s : string) : bool :=
  prefix w s ||
  match s with
  | EmptyString => false
  | String _ s' => str_in w s'
  end.

(** [any(word in s for word in words)] *)
Definition any_in (words : list string) (s : string) : bool :=
  existsb (fun word => str_in word s) words.

Definition digit_value (c : ascii) : Z := Z.of_N (ord c) - 48.

Fixpoint int_digits (acc : Z) (s : string) : Z :=
  match s with
  | EmptyString => acc
  | String c s' => int_digits (10 * acc + digit_value c) s'
  end.

(** The interpreter's cap on the digits of a string that [int] converts
    ([sys.int_info.default_max_str_digits]). *)
Definition MAX_STR_DIGITS : nat := 4300.

(** [int(s)] on a string of decimal digits: the number, and [None] for the
    [ValueError] raised when the string has more than 4300 digits, leading
    zeros counted.  A Python [int] is unbounded. *)
Definition int_of_str (s : string) : option Z :=
  if (String.length s <=? MAX_STR_DIGITS)%nat then Some (int_digits 0 s) else None.

Fixpoint all_chars (p : ascii -> bool) (s : string) : bool :=
  match s with
  | EmptyString => true
  | String c s' => p c && all_chars p s'
  end.

Fixpoint replicate (n : nat) (c : ascii) : string :=
  match n with
  | O => EmptyString
  | S n' => String c (replicate n' c)
  end.

(** ** The fragment of [re] the classifier uses

    A pattern is a sequence of character classes, each taken once, [*] or [+]
    (greedy).  [match_here] is the backtracking matcher anchored at the start
    of its subject: a repetition first takes every character it can and gives
    them back one at a time while the rest of the pattern fails.  It returns
    the piece of the subject each item matched. *)

Inductive quantifier := Once | ZeroOrMore | OneOrMore.

Record item := Item { accepts : ascii -> bool; quant : quantifier }.

Definition pattern := list item.

Definition with_piece (m : string) (r : option (list string)) : option (list string) :=
  option_map (cons m) r.

Definition grow (c : ascii) (r : option (list string)) : option (list string) :=
  match r with
  | Some (m :: ms) => Some (String c m :: ms)
  | _ => None
  end.

(** A greedy repetition of the class [accept], followed by [rest]. *)
Fixpoint repeat_greedy (accept : ascii -> bool) (rest : string -> option (list string))
  (s : string) : option (list string) :=
  match s with
  | String c s' =>
      if accept c then
        match grow c (repeat_greedy accept rest s') with
        | Some r => Some r
        | None => with_piece EmptyString (rest s)
        end
      else with_piece EmptyString (rest s)
  | EmptyString => with_piece EmptyString (rest s)
  end.

Fixpoint match_here (p : pattern) : string -> option (list string) :=
  match p with
  | [] => fun _ => Some []
  | it :: p' =>
      match quant it with
      | Once => fun s =>
          match s with
          | String c s' =>
              if accepts it c
              then with_piece (String c EmptyString) (match_here p' s')
              else None
          | EmptyString => None
          end
      | ZeroOrMore => repeat_greedy (accepts it) (match_here p')
      | OneOrMore => fun s =>
          match s with
          | String c s' =>
              if accepts it c
              then grow c (repeat_greedy (accepts it) (match_here p') s')
              else None
          | EmptyString => None
          end
      end
  end.

(** [re.search]: the match at the leftmost start offset that has one, as the
    offset and the pieces. *)
Fixpoint search_from (p : pattern) (i : nat) (s : string) : option (nat * list string) :=
  match match_here p s with
  | Some ms => Some (i, ms)
  | None =>
      match s with
      | String _ s' => search_from p (S i) s'
      | EmptyString => None
      end
  end.

Definition re_search (p : pattern) (s : string) : option (nat * list string) :=
  search_from p 0 s.

(** [match.group()] *)
Definition group0 (m : nat * list string) : string := String.concat "" (snd m).

(** [match.group(1)] when the group encloses the first item of the pattern *)
Definition group1 (m : nat * list string) : string := hd "" (snd m).

(** [r'\{.*\}'] with [re.DOTALL] *)
Definition BRACES : pattern :=
  [Item (is_char "{") Once; Item anychar ZeroOrMore; Item (is_char "}") Once].

(** [r'(\d+)\s*day'] *)
Definition DURATION : pattern :=
  [Item isdecimal OneOrMore; Item isspace ZeroOrMore;
   Item (is_char "d") Once; Item (is_char "a") Once; Item (is_char "y") Once].

(** The tails of the two patterns. *)
Local Abbreviation closing := (match_here [Item (is_char "}") Once]).

Local Abbreviation day_tail :=
  [Item (is_char "d") Once; Item (is_char "a") Once; Item (is_char "y") Once].

(** ** Values

    What [json.loads] returns: [None], [bool], [int], [float], [str], [list]
    and [dict] (with string keys, in insertion order). *)

#[local] Unset Elimination Schemes.

Inductive pyval :=
| PyNone
| PyBool (b : bool)
| PyInt (z : Z)
| PyFloat (f : float)
| PyStr (s : string)
| PyList (l : list pyval)
| PyDict (d : list (string * pyval)).

#[local] Set Elimination Schemes.

Definition pydict := list (string * pyval).

(** [d.get(k)] *)
Definition dict_get (k : string) (d : pydict) : option pyval :=
  option_map snd (find (fun kv => String.eqb (fst kv) k) d).

(** The error taxonomy of the pipeline.  [UnexpectedError] stands for any
    other exception, such as the [TypeError] of [**] on a value that is not a
    mapping. *)
Inductive error :=
| GatewayError
| ExtractionError
| ParseError
| ValidationError
| UnexpectedError.

Definition result (A : Type) := (error + A)%type.

Definition ok {A} (a : A) : result A := inr a.
Definition raise {A} (e : error) : result A := inl e.

Definition bind {A B} (m : result A) (k : A -> result B) : result B :=
  match m with
  | inl e => inl e
  | inr a => k a
  end.

Notation "x <- m ;; k" := (bind m (fun x => k))
  (at level 61, m at next level, right associativity).

(** The lines the classifier prints. *)
Inductive log_event :=
| DepartmentChanged (old new : string)
| PriorityChanged (old new : string)
| ClassifierError (e : error).

(** ** [validator.py] *)

Record ClassificationResponse := {
  intent : string;
  department : string;
  priority : string;
  confidence : float
}.

Definition INTENTS : list string := ["COMPLAINT"].

Definition DEPARTMENTS : list string :=
  ["SANITATION"; "WATER"; "ELECTRICITY"; "ROADS"; "PUBLIC_SAFETY"; "OTHER"].

Definition PRIORITIES : list string := ["LOW"; "MEDIUM"; "HIGH"].

Definition set_department (v : ClassificationResponse) (d : string) : ClassificationResponse :=
  {| intent := intent v; department := d; priority := priority v; confidence := confidence v |}.

Definition set_priority (v : ClassificationResponse) (p : string) : ClassificationResponse :=
  {| intent := intent v; department := department v; priority := p; confidence := confidence v |}.

Definition member (s : string) (l : list string) : bool := existsb (String.eqb s) l.

(** A [Literal[...]] field: present, a [str], and equal to one of the
    literals; the string is kept as it is. *)
Definition validate_literal (allowed : list string) (v : option pyval) : option string :=
  match v with
  | Some (PyStr s) => if member s allowed then Some s else None
  | _ => None
  end.

(** [float(z)] for a Python [int]: the nearest binary64, [OverflowError]
    when there is none. *)
Definition int_as_float (z : Z) : option float :=
  let f := SF2Prim (binary_normalize prec emax z 0 false) in
  if is_infinity f then None else Some f.

(** [Field(ge=0.0, le=1.0)]: both comparisons hold; a NaN satisfies neither
    and is refused. *)
Definition in_unit_interval (f : float) : bool := (0 <=? f)%float && (f <=? 1)%float.

Definition NL : string := String (ascii_of_nat 10) EmptyString.
Definition DQ : string := String (ascii_of_nat 34) EmptyString.
Definition quoted (s : string) : string := DQ ++ s ++ DQ.

Definition unlines (l : list string) : string :=
  fold_right (fun line acc => line ++ NL ++ acc) EmptyString l.

Definition SYSTEM_PROMPT : string :=
  NL ++ unlines
    ["You are a civic complaint classification engine.";
     "";
     "Respond ONLY in strict JSON format:";
     "";
     "{";
     "  " ++ quoted "intent" ++ ": " ++ quoted "COMPLAINT" ++ ",";
     "  " ++ quoted "department" ++ ": "
          ++ quoted "SANITATION | WATER | ELECTRICITY | ROADS | PUBLIC_SAFETY | OTHER" ++ ",";
     "  " ++ quoted "priority" ++ ": " ++ quoted "LOW | MEDIUM | HIGH" ++ ",";
     "  " ++ quoted "confidence" ++ ": 0.0-1.0";
     "}";
     "";
     "Rules:";
     "- Choose exactly ONE department.";
     "- Do NOT combine values.";
     "- No explanation text.";
     "- No markdown.";
     "- No extra fields.";
     "- If unsure, choose OTHER."].

(** What the process reaches outside the repository. *)
Class Runtime := {
  (** [call_ollama prompt]: the completion text, [None] when the request, the
      status check or the decoding of the reply raised. *)
  call_ollama : string -> option string;
  (** [json.loads]: [None] when it raises [JSONDecodeError]. *)
  json_loads : string -> option pyval;
  (** pydantic's conversion of a [str] to a [float] (default, lax mode). *)
  str_as_float : string -> option float
}.

Section Classifier.
Context {rt : Runtime}.

(** A [float] field under pydantic's default (lax) mode: a [float] is taken
    as it is, an [int] and a [bool] are converted, a [str] is parsed. *)
Definition validate_float (v : option pyval) : option float :=
  match v with
  | Some (PyFloat f) => Some f
  | Some (PyInt z) => int_as_float z
  | Some (PyBool b) => Some (if b then 1%float else 0%float)
  | Some (PyStr s) => str_as_float s
  | _ => None
  end.

Definition validate_confidence (v : option pyval) : option float :=
  match validate_float v with
  | Some f => if in_unit_interval f then Some f else None
  | None => None
  end.

(** The construction of a [ClassificationResponse] from the keyword
    arguments [data]: fields are looked up by name, keys that are not
    fields are ignored. *)
Definition validate_fields (data : pydict) : result ClassificationResponse :=
  match validate_literal INTENTS (dict_get "intent" data),
        validate_literal DEPARTMENTS (dict_get "department" data),
        validate_literal PRIORITIES (dict_get "priority" data),
        validate_confidence (dict_get "confidence" data) with
  | Some i, Some d, Some p, Some c =>
      ok {| intent := i; department := d; priority := p; confidence := c |}
  | _, _, _, _ => raise ValidationError
  end.

(** The call of [ClassificationResponse] on the unpacked [json_data]. *)
Definition ClassificationResponse_init (json_data : pyval) : result ClassificationResponse :=
  match json_data with
  | PyDict data => validate_fields data
  | _ => raise UnexpectedError
  end.

(** [validated.model_dump()] *)
Definition model_dump (v : ClassificationResponse) : pydict :=
  [("intent", PyStr (intent v)); ("department", PyStr (department v));
   ("priority", PyStr (priority v)); ("confidence", PyFloat (confidence v))].

(** ** [classifier.py] *)

Definition sanitize_input (text : string) : string := slice_to 1000 (strip text).

Definition extract_json (text : string) : result pyval :=
  match re_search BRACES text with
  | None => raise ExtractionError
  | Some m =>
      match json_loads (group0 m) with
      | Some v => ok v
      | None => raise ParseError
      end
  end.

Definition override_department (text predicted : string) : string :=
  let lower := lower text in
  if any_in ["street light"; "streetlight"; "power line";
             "electricity"; "transformer"; "electric pole"] lower
  then "ELECTRICITY"
  else if any_in ["garbage"; "waste"; "drain"; "sewage"; "overflow"; "trash"] lower
  then "SANITATION"
  else if any_in ["water supply"; "pipeline"; "tap water";
                  "water leakage"; "no water"] lower
  then "WATER"
  else if any_in ["road damage"; "pothole"; "road crack"] lower
  then "ROADS"
  else if any_in ["fight"; "harassment"; "theft"; "unsafe"; "crime"] lower
  then "PUBLIC_SAFETY"
  else predicted.

(** [int(match.group(1))] inside [override_priority]; its [ValueError] is
    none of the four kinds of the pipeline. *)
Definition int_group (digits : string) : result Z :=
  match int_of_str digits with
  | Some days => ok days
  | None => raise UnexpectedError
  end.

Definition override_priority (text predicted : string) : result string :=
  let lower := lower text in
  if any_in ["electric shock"; "live wire"; "fire"; "accident"; "collapse"] lower
  then ok "HIGH"
  else
    match re_search DURATION lower with
    | Some m =>
        days <- int_group (group1 m) ;;
        if (days >=? 4)%Z then ok "HIGH" else ok predicted
    | None => ok predicted
    end.

(** The object is updated field by field and returned; the second
    component is what was printed.  When the priority override raises,
    nothing is returned or printed. *)
Definition apply_overrides (text : string) (validated : ClassificationResponse)
  : result (ClassificationResponse * list log_event) :=
  let original_department := department validated in
  let original_priority := priority validated in
  let validated :=
    set_department validated (override_department text (department validated)) in
  new_priority <- override_priority text (priority validated) ;;
  let validated := set_priority validated new_priority in
  let log_department :=
    if String.eqb original_department (department validated) then []
    else [DepartmentChanged original_department (department validated)] in
  let log_priority :=
    if String.eqb original_priority (priority validated) then []
    else [PriorityChanged original_priority (priority validated)] in
  ok (validated, (log_department ++ log_priority)%list).

(** Step 4 of [classify], the confidence floor. *)
Definition enforce_confidence (validated : ClassificationResponse) : ClassificationResponse :=
  if (confidence validated <? 0.6)%float
  then set_department validated "OTHER"
  else validated.

Definition FALLBACK : pydict :=
  [("intent", PyStr "COMPLAINT"); ("department", PyStr "OTHER");
   ("priority", PyStr "MEDIUM"); ("confidence", PyFloat 0.5)].

(** The f-string of [classify]. *)
Definition build_prompt (clean_text : string) : string :=
  SYSTEM_PROMPT ++ NL ++ "Complaint: " ++ clean_text.

(** The call of the gateway inside the [try] block. *)
Definition gateway (prompt : string) : result string :=
  match call_ollama prompt with
  | Some raw => ok raw
  | None => raise GatewayError
  end.

(** The body of the [try] block: the plain result and what was printed. *)
Definition classify_try (text : string) : result (pydict * list log_event) :=
  let clean_text := sanitize_input text in
  let full_prompt := build_prompt clean_text in
  raw_output <- gateway full_prompt ;;
  json_data <- extract_json raw_output ;;
  validated <- ClassificationResponse_init json_data ;;
  let validated := enforce_confidence validated in
  overridden <- apply_overrides clean_text validated ;;
  let (validated, log) := overridden in
  ok (model_dump validated, log).

(** [except Exception]: the error is printed and the fallback returned. *)
Definition classify (text : string) : pydict * list log_event :=
  match classify_try text with
  | inr r => r
  | inl e => (FALLBACK, [ClassifierError e])
  end.

End Classifier.

(** ** The claims' vocabulary *)

(** [w] occurs in [s]. *)
Definition contains (s w : string) : Prop := exists a b, s = a ++ w ++ b.

Definition contains_any (s : string) (words : list string) : Prop :=
  exists w, In w words /\ contains s w.

(** No character of [s] satisfies [p]. *)
Definition free_of (p : ascii -> bool) (s : string) : Prop :=
  all_chars (fun c => negb (p c)) s = true.

(** [s] neither starts nor ends with a whitespace character. *)
Definition trimmed (s : string) : Prop :=
  (forall c t, s = String c t -> isspace c = false)
  /\ (forall t c, s = t ++ String c "" -> isspace c = false).

(** A plain result with its four fields, each within its domain. *)
Definition well_formed (r : pydict) : Prop :=
  exists d p c,
    r = [("intent", PyStr "COMPLAINT"); ("department", PyStr d);
         ("priority", PyStr p); ("confidence", PyFloat c)]
    /\ In d DEPARTMENTS /\ In p PRIORITIES
    /\ (0 <=? c)%float = true /\ (c <=? 1)%float = true.

(** The keyword groups of the department override, in the order of the
    specification. *)
Definition DEPARTMENT_GROUPS : list (string * list string) :=
  [("ELECTRICITY", ["street light"; "streetlight"; "power line";
                    "electricity"; "transformer"; "electric pole"]);
   ("SANITATION", ["garbage"; "waste"; "drain"; "sewage"; "overflow"; "trash"]);
   ("WATER", ["water supply"; "pipeline"; "tap water"; "water leakage"; "no water"]);
   ("ROADS", ["road damage"; "pothole"; "road crack"]);
   ("PUBLIC_SAFETY", ["fight"; "harassment"; "theft"; "unsafe"; "crime"])].

(** [g] is the first group of [groups] with a keyword that occurs in [s]. *)
Inductive first_group (s : string) : list (string * list string) -> string -> Prop :=
| FirstHere d words rest :
    contains_any s words -> first_group s ((d, words) :: rest) d
| FirstLater d0 words rest d :
    ~ contains_any s words -> first_group s rest d ->
    first_group s ((d0, words) :: rest) d.

Definition no_group (s : string) (groups : list (string * list string)) : Prop :=
  forall d words, In (d, words) groups -> ~ contains_any s words.

Definition HAZARDS : list string :=
  ["electric shock"; "live wire"; "fire"; "accident"; "collapse"].

(** At offset [i] of [s] stands a duration: the digits [digits], any
    whitespace, then [day]. *)
Definition duration_at (s : string) (i : nat) (digits : string) : Prop :=
  exists pre ws post,
    s = pre ++ digits ++ ws ++ "day" ++ post
    /\ String.length pre = i
    /\ digits <> EmptyString
    /\ all_chars isdecimal digits = true
    /\ all_chars isspace ws = true.

(** [digits] is the number of the first duration of [s]. *)
Definition first_duration (s : string) (digits : string) : Prop :=
  exists i, duration_at s i digits /\ forall j d, (j < i)%nat -> ~ duration_at s j d.

Definition no_duration (s : string) : Prop := forall i d, ~ duration_at s i d.

(** [text] has a brace-delimited span: from its first opening brace to its
    last closing brace. *)
Definition brace_span (text span : string) : Prop :=
  exists pre mid post,
    text = pre ++ "{" ++ mid ++ "}" ++ post
    /\ span = "{" ++ mid ++ "}"
    /\ free_of (is_char "{") pre
    /\ free_of (is_char "}") post.

(** No opening brace of [text] is followed by a closing brace. *)
Definition no_brace_span (text : string) : Prop :=
  forall pre mid post, text <> pre ++ "{" ++ mid ++ "}" ++ post.

(** A stage of the pipeline fails on [text], with the error [e]. *)
Inductive stage_failure {rt : Runtime} (text : string) : error -> Prop :=
| GatewayFails :
    call_ollama (build_prompt (sanitize_input text)) = None ->
    stage_failure text GatewayError
| NoBraceSpan raw :
    call_ollama (build_prompt (sanitize_input text)) = Some raw ->
    no_brace_span raw ->
    stage_failure text ExtractionError
| InvalidJson raw span :
    call_ollama (build_prompt (sanitize_input text)) = Some raw ->
    brace_span raw span ->
    json_loads span = None ->
    stage_failure text ParseError
| SchemaViolation raw span json_data e :
    call_ollama (build_prompt (sanitize_input text)) = Some raw ->
    brace_span raw span ->
    json_loads span = Some json_data ->
    ClassificationResponse_init json_data = raise e ->
    stage_failure text e.

(** Every stage succeeds on [text], and validation yields [validated]. *)
Definition stages_succeed {rt : Runtime} (text : string) (validated : ClassificationResponse)
  : Prop :=
  exists raw span json_data,
    call_ollama (build_prompt (sanitize_input text)) = Some raw
    /\ brace_span raw span
    /\ json_loads span = Some json_data
    /\ ClassificationResponse_init json_data = ok validated.

(** A [Literal] field that cannot be accepted: missing, not a [str], or a
    string outside [allowed]. *)
Definition literal_refused (allowed : list string) (v : option pyval) : Prop :=
  forall s, v = Some (PyStr s) -> ~ In s allowed.

(** A confidence that cannot be accepted: missing, not readable as a float,
    or outside [[0, 1]]. *)
Definition confidence_refused {rt : Runtime} (v : option pyval) : Prop :=
  forall f, validate_float v = Some f -> in_unit_interval f = false.

(** The confidence as the specification words it: a number in [[0, 1]]. *)
Definition is_number (v : pyval) : bool :=
  match v with
  | PyFloat _ | PyInt _ => true
  | _ => false
  end.

Definition confidence_refused_as_claimed {rt : Runtime} (v : option pyval) : Prop :=
  match v with
  | None => True
  | Some x => is_number x = false \/ confidence_refused v
  end.

Definition refused_as_claimed {rt : Runtime} (data : pydict) : Prop :=
  literal_refused INTENTS (dict_get "intent" data)
  \/ literal_refused DEPARTMENTS (dict_get "department" data)
  \/ literal_refused PRIORITIES (dict_get "priority" data)
  \/ confidence_refused_as_claimed (dict_get "confidence" data).

(** How a confidence is read as a float, case by case: a float as it is, an
    int through [float], a bool as 1.0 or 0.0, a string through pydantic's
    parser; nothing else is read, and a missing confidence neither. *)
Inductive confidence_reads {rt : Runtime} : option pyval -> float -> Prop :=
| ReadsFloat f : confidence_reads (Some (PyFloat f)) f
| ReadsInt z f : int_as_float z = Some f -> confidence_reads (Some (PyInt z)) f
| ReadsTrue : confidence_reads (Some (PyBool true)) 1%float
| ReadsFalse : confidence_reads (Some (PyBool false)) 0%float
| ReadsStr s f : str_as_float s = Some f -> confidence_reads (Some (PyStr s)) f.

(** A confidence that is not accepted: whatever it reads as lies outside
    [[0, 1]]. *)
Definition confidence_rejected {rt : Runtime} (v : option pyval) : Prop :=
  forall f, confidence_reads v f -> in_unit_interval f = false.

(** A duration whose number has one digit more than [int] converts. *)
Definition endless_outage : string := replicate 4301 "9" ++ " days".

(** ** A scripted runtime, for running the pipeline on examples *)

(** The completion is looked up by the sanitized complaint text. *)
Definition scripted_ollama (script : list (string * option string)) (prompt : string)
  : option string :=
  match find (fun kv => String.eqb (build_prompt (fst kv)) prompt) script with
  | Some kv => snd kv
  | None => None
  end.

Fixpoint split_dot (s : string) : string * option string :=
  match s with
  | EmptyString => (EmptyString, None)
  | String c s' =>
      if is_char "." c then (EmptyString, Some s')
      else let (a, b) := split_dot s' in (String c a, b)
  end.

Definition nonempty_digits (s : string) : bool :=
  negb (String.eqb s EmptyString) && all_chars isdecimal s.

Definition nat_as_spec_float (z : Z) : spec_float :=
  match z with
  | Zpos m => S754_finite false m 0
  | _ => S754_zero false
  end.

(** A numeric string in the plain notation [digits] or [digits.digits], read
    as the nearest binary64. *)
Definition decimal_as_float (s : string) : option float :=
  let (whole, frac) := split_dot s in
  let frac_digits := match frac with Some f => f | None => EmptyString end in
  let well_formed :=
    nonempty_digits whole
    && match frac with Some f => nonempty_digits f | None => true end in
  if well_formed then
    let num := int_digits 0 (whole ++ frac_digits) in
    let den := (10 ^ Z.of_nat (String.length frac_digits))%Z in
    Some (SF2Prim (SFdiv prec emax (nat_as_spec_float num) (nat_as_spec_float den)))
  else None.

Definition json_object (dept pri conf : string) : string :=
  "{" ++ quoted "intent" ++ ": " ++ quoted "COMPLAINT" ++ ", "
      ++ quoted "department" ++ ": " ++ quoted dept ++ ", "
      ++ quoted "priority" ++ ": " ++ quoted pri ++ ", "
      ++ quoted "confidence" ++ ": " ++ conf ++ "}".

Definition py_object (dept pri : string) (conf : pyval) : pyval :=
  PyDict [("intent", PyStr "COMPLAINT"); ("department", PyStr dept);
          ("priority", PyStr pri); ("confidence", conf)].

(** A complaint followed by a thousand blanks. *)
Definition padded_complaint : string := "pothole" ++ replicate 1000 " ".

(** A mapping whose confidence is a numeric string. *)
Definition quoted_confidence : pydict :=
  [("intent", PyStr "COMPLAINT"); ("department", PyStr "WATER");
   ("priority", PyStr "LOW"); ("confidence", PyStr "0.5")].

Definition test_script : list (string * option string) :=
  [("The tap water is brown",
    Some ("Here is the result: " ++ json_object "WATER" "LOW" "0.59" ++ " Done."));
   ("Stray dogs near the school for 2 days",
    Some (json_object "PUBLIC_SAFETY" "LOW" "0.9"));
   ("Noise from the park at night",
    Some (json_object "PARKS" "LOW" "0.9"));
   ("Bench is broken",
    Some "I am sorry, I cannot classify this.");
   ("Tree fell on the lane",
    Some "{department: ROADS}")].

Definition test_table : pydict :=
  [(json_object "WATER" "LOW" "0.59", py_object "WATER" "LOW" (PyFloat 0.59));
   (json_object "PUBLIC_SAFETY" "LOW" "0.9", py_object "PUBLIC_SAFETY" "LOW" (PyFloat 0.9));
   (json_object "PARKS" "LOW" "0.9", py_object "PARKS" "LOW" (PyFloat 0.9))].

(** Complaints absent from the script time out; texts absent from the table
    are not JSON. *)
Definition test_runtime : Runtime :=
  {| call_ollama := scripted_ollama test_script;
     json_loads := fun s => dict_get s test_table;
     str_as_float := decimal_as_float |}.

(** ** [call_ollama] over its HTTP transport *)

Definition OLLAMA_URL : string := "http://localhost:11434/api/generate".
Definition MODEL : string := "llama3:8b".

(** What [call_ollama] reads of the [requests.Response]. *)
Record Response := { status_code : Z; response_text : string }.

(** The HTTP client. *)
Class Transport := {
  (** [requests.post(url, json=payload, timeout=seconds)]: [None] when it
      raises (no connection, timeout). *)
  requests_post : string -> pyval -> Z -> option Response;
  (** [response.json()] on the body of the reply: [None] when it raises. *)
  response_json : string -> option pyval
}.

Definition payload (prompt : string) : pyval :=
  PyDict [("model", PyStr MODEL);
          ("prompt", PyStr prompt);
          ("stream", PyBool false);
          ("options", PyDict [("temperature", PyInt 0);
                              ("top_p", PyFloat 0.1);
                              ("num_predict", PyInt 200)])].

(** [response.raise_for_status()] raises on a 4xx and on a 5xx status. *)
Definition is_error_status (code : Z) : bool := ((400 <=? code) && (code <? 600))%Z.

(** [v[k]] for a string [k]: [KeyError] on a mapping without [k],
    [TypeError] on a value that is not a mapping. *)
Definition subscript (v : pyval) (k : string) : option pyval :=
  match v with
  | PyDict d => dict_get k d
  | _ => None
  end.

(** The body of [call_ollama]: what it returns, [None] when it raises. *)
Definition call_ollama_http {t : Transport} (prompt : string) : option pyval :=
  match requests_post OLLAMA_URL (payload prompt) 10 with
  | None => None
  | Some response =>
      if is_error_status (status_code response) then None
      else
        match response_json (response_text response) with
        | Some v => subscript v "response"
        | None => None
        end
  end.

(** The runtime whose gateway is [call_ollama_http].  A completion that is
    not a [str] makes [re.search] raise inside the same [try] block; it is
    counted with the failures of the gateway. *)
Definition http_runtime (t : Transport) (loads : string -> option pyval)
  (parse : string -> option float) : Runtime :=
  {| call_ollama := fun prompt =>
       match call_ollama_http prompt with
       | Some (PyStr raw) => Some raw
       | _ => None
       end;
     json_loads := loads;
     str_as_float := parse |}.

(** A transport that answers every request with [reply] and decodes bodies
    by the table [bodies]. *)
Definition fixed_transport (reply : option Response) (bodies : pydict) : Transport :=
  {| requests_post := fun _ _ _ => reply;
     response_json := fun s => dict_get s bodies |}.

Definition unavailable : Response :=
  {| status_code := 503; response_text := "Service Unavailable" |}.

Definition reply_without_response : Response :=
  {| status_code := 200; response_text := "{" ++ quoted "error" ++ ": " ++ quoted "model not found" ++ "}" |}.

Definition reply_with_completion : Response :=
  {| status_code := 200; response_text := "{" ++ quoted "response" ++ ": ...}" |}.

Definition test_bodies : pydict :=
  [(response_text reply_without_response, PyDict [("error", PyStr "model not found")]);
   (response_text reply_with_completion,
    PyDict [("model", PyStr MODEL);
            ("response", PyStr ("Result: " ++ json_object "ROADS" "MEDIUM" "0.8"))])].

(** ** [main.py] *)

Module Main.

Record ComplaintRequest := { text : string }.

(** What the server prints while it handles a request. *)
Inductive server_event :=
| Printed (e : log_event)
| ClassificationResult (result : pydict).

Definition health : pydict := [("status", PyStr "ok")].

Definition classify_complaint {rt : Runtime} (request : ComplaintRequest)
  : pydict * list server_event :=
  let (result, log) := classify (text request) in
  (result, (map Printed log ++ [ClassificationResult result])%list).

End Main.

(** * Properties *)

(** ** Strings *)

Lemma str_app_nil_r (s : string) : s ++ "" = s.
Proof. induction s as [|c s IH]; simpl; [reflexivity | now rewrite IH]. Qed.

Lemma str_app_assoc (a b c : string) : (a ++ b) ++ c = a ++ b ++ c.
Proof. induction a as [|x a IH]; simpl; [reflexivity | now rewrite IH]. Qed.

Lemma str_length_app (a b : string) :
  String.length (a ++ b) = (String.length a + String.length b)%nat.
Proof. induction a as [|x a IH]; simpl; [reflexivity | now rewrite IH]. Qed.

Lemma all_chars_app p (a b : string) :
  all_chars p (a ++ b) = all_chars p a && all_chars p b.
Proof.
  induction a as [|x a IH]; simpl; [reflexivity|].
  now rewrite IH, andb_assoc.
Qed.

Lemma prefix_app (w s : string) : prefix w s = true <-> exists b, s = w ++ b.
Proof.
  revert s; induction w as [|x w IH]; intros s; simpl.
  - destruct s; simpl; split; eauto.
  - destruct s as [|y s]; simpl.
    + split; [discriminate | intros [b Hb]; discriminate].
    + destruct (ascii_dec x y) as [->|Hxy].
      * rewrite IH. split; intros [b Hb]; exists b; congruence.
      * split; [discriminate | intros [b Hb]; congruence].
Qed.

Lemma str_in_contains (w s : string) : str_in w s = true <-> contains s w.
Proof.
  unfold contains. induction s as [|c s IH].
  - cbn [str_in]. rewrite orb_false_r, prefix_app. split.
    + intros [b Hb]. now exists "", b.
    + intros (a & b & Hab). destruct a; [now exists b|discriminate].
  - cbn [str_in]. rewrite orb_true_iff, IH, prefix_app. split.
    + intros [[b Hb]|(a & b & Hab)].
      * now exists "", b.
      * exists (String c a), b. simpl. now rewrite Hab.
    + intros (a & b & Hab). destruct a as [|x a]; simpl in Hab.
      * left. now exists b.
      * right. exists a, b. congruence.
Qed.

Lemma any_in_spec (words : list string) (s : string) :
  any_in words s = true <-> contains_any s words.
Proof.
  unfold any_in, contains_any. rewrite existsb_exists.
  split; intros (w & Hin & Hw); exists w; split; trivial; now apply str_in_contains.
Qed.

Lemma any_in_false (words : list string) (s : string) :
  any_in words s = false <-> ~ contains_any s words.
Proof.
  rewrite <- any_in_spec. destruct (any_in words s); split; congruence.
Qed.

Lemma lower_app (a b : string) : lower (a ++ b) = lower a ++ lower b.
Proof. induction a as [|x a IH]; simpl; [reflexivity | now rewrite IH]. Qed.

(** A keyword written in lower case that occurs in a text occurs in the
    lowered text. *)
Lemma contains_lower (s w : string) :
  lower w = w -> contains s w -> contains (lower s) w.
Proof.
  intros Hw (a & b & ->). exists (lower a), (lower b).
  now rewrite !lower_app, Hw.
Qed.

Lemma lstrip_spec (s : string) :
  exists l, s = l ++ lstrip s /\ all_chars isspace l = true.
Proof.
  induction s as [|c s (l & Hl & Hs)]; simpl.
  - now exists "".
  - destruct (isspace c) eqn:Hc.
    + exists (String c l). simpl. rewrite Hc, Hs. split; [now rewrite <- Hl | reflexivity].
    + now exists "".
Qed.

Lemma rstrip_spec (s : string) :
  exists r, s = rstrip s ++ r /\ all_chars isspace r = true.
Proof.
  induction s as [|c s (r & Hr & Hs)]; simpl.
  - now exists "".
  - destruct (rstrip s) eqn:E.
    + simpl in Hr. subst r. destruct (isspace c) eqn:Hc.
      * exists (String c s). simpl. now rewrite Hc, Hs.
      * now exists s.
    + exists r. simpl. split; [now f_equal | assumption].
Qed.

Lemma lstrip_head (s : string) (c : ascii) (t : string) :
  lstrip s = String c t -> isspace c = false.
Proof.
  induction s as [|x s IH]; simpl; [discriminate|].
  destruct (isspace x) eqn:Hx; [assumption|]. now intros [= <- _].
Qed.

Lemma rstrip_last (s : string) (t : string) (c : ascii) :
  rstrip s = t ++ String c "" -> isspace c = false.
Proof.
  revert t. induction s as [|x s IH]; intros t; simpl.
  - destruct t; discriminate.
  - destruct (rstrip s) as [|y r] eqn:E.
    + destruct (isspace x) eqn:Hx.
      * destruct t; discriminate.
      * destruct t as [|z [|? ?]]; simpl; try discriminate. now intros [= <-].
    + destruct t as [|z t]; simpl; [discriminate|].
      intros [= _ H]. now apply (IH t).
Qed.

Lemma strip_trimmed (s : string) : trimmed (strip s).
Proof.
  unfold trimmed, strip. split.
  - intros c t H. destruct (rstrip_spec (lstrip s)) as (r & Hr & _).
    rewrite H in Hr. simpl in Hr. now apply (lstrip_head s c (t ++ r)).
  - intros t c H. now apply (rstrip_last (lstrip s) t).
Qed.

Lemma strip_spec (s : string) :
  exists l r, s = l ++ strip s ++ r
              /\ all_chars isspace l = true /\ all_chars isspace r = true.
Proof.
  destruct (lstrip_spec s) as (l & Hl & Hls).
  destruct (rstrip_spec (lstrip s)) as (r & Hr & Hrs).
  exists l, r. unfold strip. now rewrite <- Hr.
Qed.

Lemma slice_to_length (n : nat) (s : string) :
  String.length (slice_to n s) = Nat.min n (String.length s).
Proof.
  revert s; induction n as [|n IH]; intros [|c s]; simpl; trivial.
  now rewrite IH.
Qed.

Lemma slice_to_prefix (n : nat) (s : string) :
  exists rest, s = slice_to n s ++ rest.
Proof.
  revert s; induction n as [|n IH]; intros [|c s]; simpl; eauto.
  destruct (IH s) as [rest Hrest]. exists rest. congruence.
Qed.

Lemma app_inv_length (a b a' b' : string) :
  a ++ b = a' ++ b' -> String.length a = String.length a' -> a = a' /\ b = b'.
Proof.
  revert a'; induction a as [|x a IH]; intros [|y a']; simpl; try discriminate.
  - auto.
  - intros H L. injection H as -> H. injection L as L.
    destruct (IH _ H L) as [-> ->]. auto.
Qed.

Lemma space_not_decimal (c : ascii) : isspace c = true -> isdecimal c = false.
Proof.
  destruct c as [[] [] [] [] [] [] [] []]; vm_compute; congruence.
Qed.

(** ** The matcher *)

Section Repeat.
Variable accept : ascii -> bool.
Variable rest : string -> option (list string).

(** What a repetition returns is a run of accepted characters followed by
    a match of the rest. *)
Lemma repeat_greedy_sound (s : string) (r : list string) :
  repeat_greedy accept rest s = Some r ->
  exists m ms t,
    r = m :: ms /\ s = m ++ t /\ all_chars accept m = true /\ rest t = Some ms.
Proof.
  revert r. induction s as [|c s IH]; intros r; simpl.
  - destruct (rest "") as [ms|] eqn:E; simpl; [|discriminate].
    intros [= <-]. now exists "", ms, "".
  - assert (Hrest : with_piece "" (rest (String c s)) = Some r ->
                    exists m ms t, r = m :: ms /\ String c s = m ++ t
                                   /\ all_chars accept m = true /\ rest t = Some ms).
    { destruct (rest (String c s)) as [ms|] eqn:E; simpl; [|discriminate].
      intros [= <-]. now exists "", ms, (String c s). }
    destruct (accept c) eqn:Hc; [|exact Hrest].
    destruct (repeat_greedy accept rest s) as [[|m ms]|] eqn:E; simpl; try exact Hrest.
    intros [= <-]. destruct (IH _ eq_refl) as (m' & ms' & t & [= -> ->] & -> & Hm & Ht).
    exists (String c m'), ms', t. simpl. now rewrite Hc, Hm.
Qed.

(** A run that cannot be extended, followed by a match of the rest, is
    what the repetition returns. *)
Lemma repeat_greedy_run (m t : string) (ms : list string) :
  all_chars accept m = true ->
  (forall c t', t = String c t' -> accept c = false) ->
  rest t = Some ms ->
  repeat_greedy accept rest (m ++ t) = Some (m :: ms).
Proof.
  intros Hm Hstop Ht. induction m as [|c m IH]; simpl.
  - destruct t as [|c t']; simpl.
    + now rewrite Ht.
    + rewrite (Hstop c t' eq_refl), Ht. reflexivity.
  - simpl in Hm. apply andb_true_iff in Hm as [Hc Hm].
    rewrite Hc, (IH Hm). reflexivity.
Qed.

(** A repetition fails only when the rest fails after every run. *)
Lemma repeat_greedy_none (s : string) :
  repeat_greedy accept rest s = None ->
  forall m t, s = m ++ t -> all_chars accept m = true -> rest t = None.
Proof.
  induction s as [|c s IH]; simpl.
  - intros H [|x m] t; simpl; [intros <- _|discriminate].
    destruct (rest ""); [discriminate|reflexivity].
  - assert (Hhere : with_piece "" (rest (String c s)) = None -> rest (String c s) = None).
    { destruct (rest (String c s)); [discriminate|reflexivity]. }
    destruct (accept c) eqn:Hc.
    + destruct (repeat_greedy accept rest s) as [[|m0 ms]|] eqn:E; simpl; try discriminate.
      * intros H [|x m] t; simpl.
        -- intros <- _. now apply Hhere.
        -- intros [= <- ->] Hm. apply andb_true_iff in Hm as [_ Hm].
           destruct (repeat_greedy_sound _ _ E) as (? & ? & ? & [=] & _).
      * intros H [|x m] t; simpl.
        -- intros <- _. now apply Hhere.
        -- intros [= <- ->] Hm. apply andb_true_iff in Hm as [_ Hm].
           now apply (IH eq_refl m t).
    + intros H [|x m] t; simpl.
      * intros <- _. now apply Hhere.
      * intros [= <- ->] Hm. simpl in Hm. rewrite Hc in Hm. discriminate.
Qed.
End Repeat.

(** The leftmost start offset wins. *)
Lemma search_from_first (p : pattern) (k : nat) (pre suf : string) (ms : list string) :
  (forall pre' suf', pre ++ suf = pre' ++ suf' ->
     (String.length pre' < String.length pre)%nat -> match_here p suf' = None) ->
  match_here p suf = Some ms ->
  search_from p k (pre ++ suf) = Some ((k + String.length pre)%nat, ms).
Proof.
  revert k. induction pre as [|c pre IH]; intros k Hbefore Hhere.
  - simpl. destruct suf; simpl; rewrite Hhere; f_equal; f_equal; lia.
  - cbn [append search_from].
    rewrite (Hbefore "" (String c (pre ++ suf)) eq_refl) by (simpl; lia).
    rewrite IH; trivial.
    + simpl. f_equal. f_equal. lia.
    + intros pre' suf' E L. apply (Hbefore (String c pre') suf').
      * simpl. now rewrite E.
      * simpl. lia.
Qed.

Lemma search_from_some (p : pattern) (k : nat) (s : string) (i : nat) (ms : list string) :
  search_from p k s = Some (i, ms) ->
  exists pre suf,
    s = pre ++ suf /\ i = (k + String.length pre)%nat /\ match_here p suf = Some ms
    /\ forall pre' suf', s = pre' ++ suf' ->
         (String.length pre' < String.length pre)%nat -> match_here p suf' = None.
Proof.
  revert k. induction s as [|c s IH]; intros k; cbn [search_from].
  - destruct (match_here p "") as [ms'|] eqn:E; [|discriminate].
    intros [= <- <-]. exists "", "". simpl. repeat split; trivial; lia.
  - destruct (match_here p (String c s)) as [ms'|] eqn:E.
    + intros [= <- <-]. exists "", (String c s). simpl. repeat split; trivial; lia.
    + intros H. destruct (IH _ H) as (pre & suf & -> & -> & Hm & Hbefore).
      exists (String c pre), suf. simpl. repeat split; trivial; try lia.
      intros [|x pre'] suf'; simpl.
      * intros <- _. exact E.
      * intros [= <- E'] L. apply (Hbefore pre' suf' E'). lia.
Qed.

Lemma search_from_none (p : pattern) (k : nat) (s : string) :
  search_from p k s = None ->
  forall pre suf, s = pre ++ suf -> match_here p suf = None.
Proof.
  revert k. induction s as [|c s IH]; intros k; cbn [search_from].
  - destruct (match_here p "") eqn:E; [discriminate|].
    intros _ [|x pre] suf; simpl; [intros <-; exact E | discriminate].
  - destruct (match_here p (String c s)) eqn:E; [discriminate|].
    intros H [|x pre] suf; simpl.
    + intros <-. exact E.
    + intros [= <- ->]. now apply (IH _ H pre suf).
Qed.

(** A start offset inside [pre] looks at a character of [pre]. *)
Lemma split_inside (pre suf pre' suf' : string) :
  pre ++ suf = pre' ++ suf' ->
  (String.length pre' < String.length pre)%nat ->
  exists c mid, pre = pre' ++ String c mid /\ suf' = String c (mid ++ suf).
Proof.
  revert pre'. induction pre as [|x pre IH]; intros [|y pre']; simpl; try lia.
  - intros <- _. now exists x, pre.
  - intros [= <- E] L. destruct (IH pre' E) as (c & mid & -> & ->); [lia|].
    now exists c, mid.
Qed.

Lemma free_of_app p (a b : string) : free_of p (a ++ b) <-> free_of p a /\ free_of p b.
Proof. unfold free_of. now rewrite all_chars_app, andb_true_iff. Qed.

Lemma free_of_cons p (c : ascii) (s : string) :
  free_of p (String c s) <-> p c = false /\ free_of p s.
Proof.
  unfold free_of. simpl. rewrite andb_true_iff, negb_true_iff. reflexivity.
Qed.

(** Every string is free of [a] or splits at its last [a]. *)
Lemma last_occurrence (a : ascii) (t : string) :
  free_of (is_char a) t \/
  exists mid post, t = mid ++ String a post /\ free_of (is_char a) post.
Proof.
  induction t as [|c t [IH|(mid & post & -> & Hpost)]].
  - now left.
  - destruct (is_char a c) eqn:Hc.
    + right. exists "", t. apply Ascii.eqb_eq in Hc as <-. now split.
    + left. now apply free_of_cons.
  - right. now exists (String c mid), post.
Qed.

(** Every string is free of [a] or splits at its first [a]. *)
Lemma first_occurrence (a : ascii) (t : string) :
  free_of (is_char a) t \/
  exists pre rest, t = pre ++ String a rest /\ free_of (is_char a) pre.
Proof.
  induction t as [|c t IH].
  - now left.
  - destruct (is_char a c) eqn:Hc.
    + right. exists "", t. apply Ascii.eqb_eq in Hc as <-. now split.
    + destruct IH as [IH|(pre & rest & -> & Hpre)].
      * left. now apply free_of_cons.
      * right. exists (String c pre), rest. split; [reflexivity|].
        now apply free_of_cons.
Qed.

(** The equations of [match_here]. *)
Lemma match_here_once a (p : pattern) (c : ascii) (s : string) :
  match_here (Item a Once :: p) (String c s)
  = if a c then with_piece (String c "") (match_here p s) else None.
Proof. reflexivity. Qed.

Lemma match_here_star a (p : pattern) (s : string) :
  match_here (Item a ZeroOrMore :: p) s = repeat_greedy a (match_here p) s.
Proof. reflexivity. Qed.

Lemma match_here_plus a (p : pattern) (c : ascii) (s : string) :
  match_here (Item a OneOrMore :: p) (String c s)
  = if a c then grow c (repeat_greedy a (match_here p) s) else None.
Proof. reflexivity. Qed.

(** *** The pattern BRACES *)

Lemma dotall_unclosed (t : string) :
  free_of (is_char "}") t -> repeat_greedy anychar closing t = None.
Proof.
  induction t as [|c t IH]; [reflexivity|].
  intros [Hc Ht]%free_of_cons. cbn [repeat_greedy anychar].
  now rewrite (IH Ht), match_here_once, Hc.
Qed.

Lemma dotall_last (mid post : string) :
  free_of (is_char "}") post ->
  repeat_greedy anychar closing (mid ++ String "}" post) = Some [mid; "}"].
Proof.
  intros Hpost. induction mid as [|c mid IH].
  - cbn [append repeat_greedy anychar]. now rewrite dotall_unclosed.
  - cbn [append repeat_greedy anychar]. now rewrite IH.
Qed.

Lemma match_braces_span (mid post : string) :
  free_of (is_char "}") post ->
  match_here BRACES ("{" ++ mid ++ "}" ++ post) = Some ["{"; mid; "}"].
Proof.
  intros Hpost. unfold BRACES. cbn [append].
  now rewrite match_here_once, match_here_star, (dotall_last mid post Hpost).
Qed.

Lemma match_braces_sound (s : string) (ms : list string) :
  match_here BRACES s = Some ms ->
  exists mid post,
    s = "{" ++ mid ++ "}" ++ post /\ free_of (is_char "}") post /\ ms = ["{"; mid; "}"].
Proof.
  destruct s as [|c s]; [discriminate|].
  unfold BRACES. rewrite match_here_once, match_here_star.
  destruct (is_char "{" c) eqn:Hc; [|discriminate].
  apply Ascii.eqb_eq in Hc as <-.
  destruct (last_occurrence "}" s) as [Hfree|(mid & post & -> & Hpost)].
  - now rewrite dotall_unclosed.
  - rewrite (dotall_last mid post Hpost). intros [= <-]. now exists mid, post.
Qed.

Lemma group0_braces (i : nat) (mid : string) :
  group0 (i, ["{"; mid; "}"]) = "{" ++ mid ++ "}".
Proof. reflexivity. Qed.

(** [re.search] finds the span from the first opening brace to the last
    closing brace. *)
Lemma re_search_braces_span (pre mid post : string) :
  free_of (is_char "{") pre -> free_of (is_char "}") post ->
  re_search BRACES (pre ++ "{" ++ mid ++ "}" ++ post)
  = Some (String.length pre, ["{"; mid; "}"]).
Proof.
  intros Hpre Hpost. unfold re_search.
  rewrite (search_from_first BRACES 0 pre _ ["{"; mid; "}"]); trivial.
  - intros pre' suf' E L.
    destruct (split_inside _ _ _ _ E L) as (c & m & -> & ->).
    apply free_of_app in Hpre as [_ [Hc _]%free_of_cons].
    unfold BRACES. now rewrite match_here_once, Hc.
  - now apply match_braces_span.
Qed.

Lemma re_search_braces_cases (text : string) :
  match re_search BRACES text with
  | Some m => brace_span text (group0 m)
  | None => no_brace_span text
  end.
Proof.
  destruct (re_search BRACES text) as [[i ms]|] eqn:E.
  - apply search_from_some in E as (pre & suf & -> & -> & Hm & Hleft).
    apply match_braces_sound in Hm as (mid & post & -> & Hpost & ->).
    exists pre, mid, post. repeat split; trivial.
    destruct (first_occurrence "{" pre) as [Hfree|(a & b & -> & Ha)]; trivial.
    exfalso.
    assert (Hsome : match_here BRACES ("{" ++ (b ++ "{" ++ mid) ++ "}" ++ post)
                    = Some ["{"; b ++ "{" ++ mid; "}"]) by now apply match_braces_span.
    rewrite (Hleft a ("{" ++ (b ++ "{" ++ mid) ++ "}" ++ post)) in Hsome.
    + discriminate.
    + simpl. now rewrite !str_app_assoc.
    + rewrite str_length_app. simpl. lia.
  - intros pre mid post ->.
    pose proof (search_from_none _ _ _ E pre _ eq_refl) as Hnone.
    destruct (last_occurrence "}" (mid ++ "}" ++ post)) as [Hfree|(m & p & Hsplit & Hp)].
    + apply free_of_app in Hfree as [_ [Hc _]%free_of_cons]. discriminate.
    + cbn [append] in Hnone, Hsplit. rewrite Hsplit in Hnone.
      pose proof (match_braces_span m p Hp) as Hsome. cbn [append] in Hsome.
      congruence.
Qed.

(** *** The pattern DURATION *)

Lemma match_day_sound (t : string) (ms : list string) :
  match_here day_tail t = Some ms ->
  exists post, t = "day" ++ post /\ ms = ["d"; "a"; "y"].
Proof.
  destruct t as [|c1 [|c2 [|c3 post]]]; try discriminate.
  - rewrite match_here_once. destruct (is_char "d" c1); discriminate.
  - rewrite !match_here_once.
    destruct (is_char "d" c1); [|discriminate]. destruct (is_char "a" c2); discriminate.
  - rewrite !match_here_once.
    destruct (is_char "d" c1) eqn:H1; [|discriminate].
    destruct (is_char "a" c2) eqn:H2; [|discriminate].
    destruct (is_char "y" c3) eqn:H3; [|discriminate].
    apply Ascii.eqb_eq in H1 as <-, H2 as <-, H3 as <-.
    intros [= <-]. now exists post.
Qed.

Lemma match_duration (d ws post : string) :
  d <> "" -> all_chars isdecimal d = true -> all_chars isspace ws = true ->
  match_here DURATION (d ++ ws ++ "day" ++ post) = Some [d; ws; "d"; "a"; "y"].
Proof.
  intros Hne Hd Hws. destruct d as [|c d]; [congruence|].
  simpl in Hd. apply andb_true_iff in Hd as [Hc Hd].
  unfold DURATION. cbn [append]. rewrite match_here_plus, Hc.
  rewrite (repeat_greedy_run isdecimal _ d (ws ++ "day" ++ post) [ws; "d"; "a"; "y"]);
    trivial.
  - intros x t' E. destruct ws as [|y ws]; simpl in E.
    + now injection E as <- _.
    + injection E as <- _. simpl in Hws. apply andb_true_iff in Hws as [Hy _].
      now apply space_not_decimal.
  - rewrite match_here_star.
    apply (repeat_greedy_run isspace _ ws ("day" ++ post) ["d"; "a"; "y"]); trivial.
    intros x t' E. now injection E as <- _.
Qed.

Lemma match_duration_sound (suf : string) (ms : list string) :
  match_here DURATION suf = Some ms ->
  exists d ws post,
    suf = d ++ ws ++ "day" ++ post /\ d <> ""
    /\ all_chars isdecimal d = true /\ all_chars isspace ws = true
    /\ ms = [d; ws; "d"; "a"; "y"].
Proof.
  destruct suf as [|c s]; [discriminate|].
  unfold DURATION. rewrite match_here_plus.
  destruct (isdecimal c) eqn:Hc; [|discriminate].
  destruct (repeat_greedy isdecimal _ s) as [r|] eqn:E; [|discriminate].
  apply repeat_greedy_sound in E as (m & ms1 & t & -> & -> & Hm & Ht).
  rewrite match_here_star in Ht.
  apply repeat_greedy_sound in Ht as (w & ms2 & t2 & -> & -> & Hw & Ht2).
  apply match_day_sound in Ht2 as (post & -> & ->).
  cbn [grow]. intros [= <-].
  exists (String c m), w, post. repeat split; trivial; try discriminate.
  simpl. now rewrite Hc, Hm.
Qed.

Lemma re_search_duration_cases (s : string) :
  match re_search DURATION s with
  | Some m => first_duration s (group1 m)
  | None => no_duration s
  end.
Proof.
  destruct (re_search DURATION s) as [[i ms]|] eqn:E.
  - apply search_from_some in E as (pre & suf & -> & -> & Hm & Hleft).
    apply match_duration_sound in Hm as (d & ws & post & -> & Hne & Hd & Hws & ->).
    exists (String.length pre). split.
    + now exists pre, ws, post.
    + intros j d' Hj (pre' & ws' & post' & E' & <- & Hne' & Hd' & Hws').
      pose proof (match_duration d' ws' post' Hne' Hd' Hws') as Hsome.
      rewrite (Hleft pre' _ E') in Hsome; [discriminate | assumption].
  - intros i d (pre & ws & post & -> & _ & Hne & Hd & Hws).
    pose proof (search_from_none _ _ _ E pre _ eq_refl) as Hnone.
    now rewrite (match_duration d ws post Hne Hd Hws) in Hnone.
Qed.

(** The number [re.search] captures is the number of the first duration. *)
Lemma first_duration_search (s d : string) :
  first_duration s d ->
  exists m, re_search DURATION s = Some m /\ group1 m = d.
Proof.
  intros (i & (pre & ws & post & -> & <- & Hne & Hd & Hws) & Hfirst).
  exists (String.length pre, [d; ws; "d"; "a"; "y"]). split; [|reflexivity].
  unfold re_search.
  rewrite (search_from_first DURATION 0 pre _ [d; ws; "d"; "a"; "y"]); trivial.
  - intros pre' suf' E L.
    destruct (match_here DURATION suf') as [ms|] eqn:Hm; [exfalso|reflexivity].
    apply match_duration_sound in Hm as (d' & ws' & post' & -> & Hne' & Hd' & Hws' & _).
    apply (Hfirst (String.length pre') d' L). now exists pre', ws', post'.
  - now apply match_duration.
Qed.

(** ** The sanitizer *)

(** C6, as stated, fails: a text longer than 1000 characters whose trimmed
    form is short is not sanitized to 1000 characters.  Here the text has
    1007 characters and is sanitized to the 7 characters of [pothole]. *)
Lemma sanitize_input_padded :
  (1000 < String.length padded_complaint)%nat
  /\ sanitize_input padded_complaint = "pothole"
  /\ String.length (sanitize_input padded_complaint) <> 1000%nat.
Proof.
  split; [|split].
  - apply Nat.ltb_lt. vm_compute. reflexivity.
  - vm_compute. reflexivity.
  - vm_compute. discriminate.
Qed.

(** C6, amended: [sanitize_input] is total; it removes the leading and
    trailing whitespace of the text and keeps the first 1000 characters of
    what is left, so that the result has 1000 characters exactly when the
    trimmed text (not the text) has at least 1000, and all of the trimmed
    text otherwise. *)
Theorem sanitize_input_spec (text : string) :
  (exists l r, text = l ++ strip text ++ r
               /\ all_chars isspace l = true /\ all_chars isspace r = true)
  /\ trimmed (strip text)
  /\ (exists rest, strip text = sanitize_input text ++ rest)
  /\ String.length (sanitize_input text) = Nat.min 1000 (String.length (strip text))
  /\ ((1000 < String.length (strip text))%nat ->
      String.length (sanitize_input text) = 1000%nat).
Proof.
  unfold sanitize_input. split; [apply strip_spec|].
  split; [apply strip_trimmed|].
  split; [apply slice_to_prefix|].
  split; [apply slice_to_length|].
  intros H. rewrite slice_to_length. lia.
Qed.

(** ** The override engine *)

(** Case analysis on every keyword test of the goal. *)
Ltac case_keywords :=
  repeat match goal with
         | |- context [any_in ?words ?s] => destruct (any_in words s)
         end.

Lemma first_group_find (s : string) (groups : list (string * list string)) (d : string) :
  first_group s groups d
  <-> option_map fst (find (fun g => any_in (snd g) s) groups) = Some d.
Proof.
  split.
  - induction 1 as [d words rest H|d0 words rest d H _ IH]; simpl.
    + apply any_in_spec in H. now rewrite H.
    + apply any_in_false in H. now rewrite H.
  - induction groups as [|[d0 words] rest IH]; simpl; [discriminate|].
    destruct (any_in words s) eqn:E.
    + intros [= <-]. apply FirstHere. now apply any_in_spec.
    + intros H. apply FirstLater; [now apply any_in_false | auto].
Qed.

Lemma no_group_find (s : string) (groups : list (string * list string)) :
  no_group s groups <-> find (fun g => any_in (snd g) s) groups = None.
Proof.
  unfold no_group. split.
  - intros H. destruct (find _ groups) as [[d words]|] eqn:E; [|reflexivity].
    apply find_some in E as [Hin Hany]. simpl in Hany.
    apply any_in_spec in Hany. now destruct (H d words Hin).
  - intros H d words Hin Hany. apply any_in_spec in Hany.
    pose proof (find_none _ _ H (d, words) Hin) as Hf. simpl in Hf. congruence.
Qed.

(** The chain of tests of [override_department] is the search of the first
    matching group. *)
Lemma override_department_find (text predicted : string) :
  override_department text predicted
  = match find (fun g => any_in (snd g) (lower text)) DEPARTMENT_GROUPS with
    | Some g => fst g
    | None => predicted
    end.
Proof.
  unfold override_department, DEPARTMENT_GROUPS. cbn [find snd fst].
  case_keywords; reflexivity.
Qed.

(** C3: the department override returns the department of the first group,
    in the order electricity, sanitation, water, roads, public safety, one
    of whose keywords occurs in the lowered text, whatever was predicted;
    with [transformer] and [garbage] in the text that is ELECTRICITY; when
    no group matches it returns the prediction. *)
Theorem override_department_spec (text predicted : string) :
  (forall d, first_group (lower text) DEPARTMENT_GROUPS d ->
             override_department text predicted = d)
  /\ (no_group (lower text) DEPARTMENT_GROUPS ->
      override_department text predicted = predicted)
  /\ (contains text "transformer" -> contains text "garbage" ->
      override_department text predicted = "ELECTRICITY")
  /\ ((exists d, first_group (lower text) DEPARTMENT_GROUPS d)
      \/ no_group (lower text) DEPARTMENT_GROUPS).
Proof.
  rewrite override_department_find. repeat split.
  - intros d H. apply first_group_find in H.
    destruct (find _ DEPARTMENT_GROUPS); simpl in H; congruence.
  - intros H. apply no_group_find in H. now rewrite H.
  - intros Ht _. apply (contains_lower _ _ eq_refl) in Ht.
    assert (H : first_group (lower text) DEPARTMENT_GROUPS "ELECTRICITY").
    { apply FirstHere. exists "transformer". split; [simpl; tauto | assumption]. }
    apply first_group_find in H.
    destruct (find _ DEPARTMENT_GROUPS); simpl in H; congruence.
  - destruct (find (fun g => any_in (snd g) (lower text)) DEPARTMENT_GROUPS) as [g|] eqn:E.
    + left. exists (fst g). apply first_group_find. now rewrite E.
    + right. now apply no_group_find.
Qed.

Lemma override_department_idem (text d : string) :
  override_department text (override_department text d) = override_department text d.
Proof.
  unfold override_department.
  case_keywords; reflexivity.
Qed.

(** The digits of a string of at most 4300 characters are converted. *)
Lemma int_of_str_cases (d : string) :
  ((String.length d <= 4300)%nat -> int_of_str d = Some (int_digits 0 d))
  /\ ((4300 < String.length d)%nat -> int_of_str d = None).
Proof.
  unfold int_of_str, MAX_STR_DIGITS.
  destruct (Nat.leb_spec (String.length d) 4300); split; trivial; lia.
Qed.

Lemma lower_length (s : string) : String.length (lower s) = String.length s.
Proof. induction s as [|c s IH]; simpl; [reflexivity | now rewrite IH]. Qed.

(** The number that [re.search] captures is no longer than its subject. *)
Lemma group1_length (s : string) (m : nat * list string) :
  re_search DURATION s = Some m -> (String.length (group1 m) <= String.length s)%nat.
Proof.
  intros H. pose proof (re_search_duration_cases s) as Hcases. rewrite H in Hcases.
  destruct Hcases as (i & (pre & ws & post & E & _) & _).
  apply (f_equal String.length) in E. rewrite !str_length_app in E. lia.
Qed.

(** What [override_priority] does, branch by branch. *)
Lemma override_priority_cases (text predicted : string) :
  override_priority text predicted = ok "HIGH"
  \/ override_priority text predicted = ok predicted
  \/ (override_priority text predicted = raise UnexpectedError
      /\ (4300 < String.length text)%nat).
Proof.
  unfold override_priority, int_group.
  destruct (any_in _ (lower text)); [auto|].
  destruct (re_search DURATION (lower text)) as [m|] eqn:E; [|auto].
  destruct (int_of_str_cases (group1 m)) as [Hshort Hlong].
  destruct (Nat.le_gt_cases (String.length (group1 m)) 4300) as [L|L].
  - rewrite (Hshort L). cbn [bind ok].
    destruct (int_digits 0 (group1 m) >=? 4)%Z; auto.
  - rewrite (Hlong L). right. right. split; [reflexivity|].
    apply group1_length in E. rewrite lower_length in E. lia.
Qed.

(** On a text of at most 4300 characters, a sanitized text for one,
    [override_priority] returns. *)
Lemma override_priority_returns (text predicted : string) :
  (String.length text <= 4300)%nat ->
  exists p, override_priority text predicted = ok p
            /\ (p = "HIGH" \/ p = predicted).
Proof.
  intros L. destruct (override_priority_cases text predicted) as [H|[H|[_ H]]].
  - exists "HIGH". auto.
  - exists predicted. auto.
  - lia.
Qed.

(** A second pass of the priority override over what the first returned
    returns it again. *)
Lemma override_priority_idem (text p q : string) :
  override_priority text p = ok q -> override_priority text q = ok q.
Proof.
  unfold override_priority.
  destruct (any_in _ (lower text)); [now intros [= <-]|].
  destruct (re_search DURATION (lower text)) as [m|]; [|now intros [= <-]].
  destruct (int_group (group1 m)) as [e|days]; [discriminate|]. cbn [bind].
  destruct (days >=? 4)%Z; now intros [= <-].
Qed.

(** What a completed [apply_overrides] returns and prints. *)
Lemma apply_overrides_ok (text : string) (r r' : ClassificationResponse)
  (log : list log_event) :
  apply_overrides text r = ok (r', log) <->
  exists p,
    override_priority text (priority r) = ok p
    /\ r' = {| intent := intent r; department := override_department text (department r);
               priority := p; confidence := confidence r |}
    /\ log = ((if String.eqb (department r) (override_department text (department r))
               then [] else [DepartmentChanged (department r)
                               (override_department text (department r))])
              ++ (if String.eqb (priority r) p
                  then [] else [PriorityChanged (priority r) p]))%list.
Proof.
  unfold apply_overrides, set_priority, set_department.
  cbn [department priority intent confidence].
  destruct (override_priority text (priority r)) as [e|p]; cbn [bind].
  - split; [discriminate | intros (p & [=] & _)].
  - unfold ok. split.
    + intros [= <- <-]. now exists p.
    + intros (p' & [= <-] & -> & ->). reflexivity.
Qed.

Lemma apply_overrides_raise (text : string) (r : ClassificationResponse) (e : error) :
  apply_overrides text r = raise e <-> override_priority text (priority r) = raise e.
Proof.
  unfold apply_overrides, set_priority, set_department.
  cbn [department priority intent confidence].
  unfold raise.
  destruct (override_priority text (priority r)); cbn [bind].
  - split; intros [= <-]; reflexivity.
  - split; discriminate.
Qed.

(** C9: for every text and result, running the override engine on its own
    output returns that output again (and prints nothing); where the first
    run raises, so does the pair of runs. *)
Theorem apply_overrides_idempotent (text : string) (r : ClassificationResponse) :
  (overridden <- apply_overrides text r ;; apply_overrides text (fst overridden))
  = (overridden <- apply_overrides text r ;; ok (fst overridden, []))
  /\ (forall r' log, apply_overrides text r = ok (r', log) ->
        apply_overrides text r' = ok (r', [])).
Proof.
  assert (H : forall r' log, apply_overrides text r = ok (r', log) ->
                apply_overrides text r' = ok (r', [])).
  { intros r' log E. apply apply_overrides_ok in E as (p & Hp & -> & _).
    apply apply_overrides_ok. exists p. cbn [department priority intent confidence].
    rewrite override_department_idem, !String.eqb_refl.
    split; [now apply (override_priority_idem text (priority r)) | now split]. }
  split; [|exact H].
  destruct (apply_overrides text r) as [e|[r' log]] eqn:E; cbn [bind fst]; [reflexivity|].
  now apply (H r' log).
Qed.

(** C10: for every text and result, the override engine leaves the intent
    and the confidence of the result as they were. *)
Theorem apply_overrides_frame (text : string) (r r' : ClassificationResponse)
  (log : list log_event) :
  apply_overrides text r = ok (r', log) ->
  intent r' = intent r /\ confidence r' = confidence r.
Proof.
  intros H. apply apply_overrides_ok in H as (p & _ & -> & _). now split.
Qed.

Lemma apply_overrides_frame_witness :
  intent {| intent := "COMPLAINT"; department := "ELECTRICITY";
            priority := "HIGH"; confidence := 0.5 |}
  = intent {| intent := "COMPLAINT"; department := "OTHER";
              priority := "MEDIUM"; confidence := 0.5 |}
  /\ confidence {| intent := "COMPLAINT"; department := "ELECTRICITY";
                   priority := "HIGH"; confidence := 0.5 |}
     = confidence {| intent := "COMPLAINT"; department := "OTHER";
                     priority := "MEDIUM"; confidence := 0.5 |}.
Proof.
  apply (apply_overrides_frame "transformer on fire"
           {| intent := "COMPLAINT"; department := "OTHER";
              priority := "MEDIUM"; confidence := 0.5 |}
           {| intent := "COMPLAINT"; department := "ELECTRICITY";
              priority := "HIGH"; confidence := 0.5 |}
           [DepartmentChanged "OTHER" "ELECTRICITY"; PriorityChanged "MEDIUM" "HIGH"]).
  vm_compute. reflexivity.
Defined.

Lemma override_department_in (text d : string) :
  In d DEPARTMENTS -> In (override_department text d) DEPARTMENTS.
Proof.
  intros Hd. unfold override_department.
  case_keywords; trivial; simpl; tauto.
Qed.

Lemma override_priority_in (text p q : string) :
  In p PRIORITIES -> override_priority text p = ok q -> In q PRIORITIES.
Proof.
  intros Hp H.
  destruct (override_priority_cases text p) as [E|[E|[E _]]]; rewrite E in H.
  - injection H as <-. simpl; tauto.
  - now injection H as <-.
  - discriminate.
Qed.

(** C4, as stated, fails: on a text whose first duration has 4301 digits
    (no hazard keyword, a number far above 4) the conversion of the digits
    raises and no priority is returned. *)
Lemma override_priority_endless_outage :
  ~ contains_any (lower endless_outage) HAZARDS
  /\ first_duration (lower endless_outage) (replicate 4301 "9")
  /\ (4 <= int_digits 0 (replicate 4301 "9"))%Z
  /\ override_priority endless_outage "LOW" = raise UnexpectedError
  /\ override_priority endless_outage "LOW" <> ok "HIGH".
Proof.
  split; [apply any_in_false; vm_compute; reflexivity|].
  split.
  - exists 0%nat. split; [|intros j d Hj; lia].
    exists "", " ", "s". repeat split; try (vm_compute; reflexivity). discriminate.
  - split; [apply Z.leb_le; vm_compute; reflexivity|].
    assert (E : override_priority endless_outage "LOW" = raise UnexpectedError)
      by (vm_compute; reflexivity).
    split; [exact E | rewrite E; discriminate].
Qed.

(** C4, amended: for every text and predicted priority, the priority
    override returns HIGH when a hazard keyword occurs in the lowered text;
    otherwise it looks at the first duration (digits, optional whitespace,
    [day]) of the lowered text only: when its number has at most 4300
    digits it returns HIGH if the number is at least 4 and the prediction
    if not, and when it has more the conversion raises and nothing is
    returned; without a duration it returns the prediction.  On a text of
    at most 4300 characters it always returns.  So [5 days] gives HIGH and
    [2 days] the prediction. *)
Theorem override_priority_spec (text predicted : string) :
  (contains_any (lower text) HAZARDS -> override_priority text predicted = ok "HIGH")
  /\ (~ contains_any (lower text) HAZARDS ->
      forall d, first_duration (lower text) d -> (String.length d <= 4300)%nat ->
        override_priority text predicted
        = ok (if (4 <=? int_digits 0 d)%Z then "HIGH" else predicted))
  /\ (~ contains_any (lower text) HAZARDS ->
      forall d, first_duration (lower text) d -> (4300 < String.length d)%nat ->
        override_priority text predicted = raise UnexpectedError)
  /\ (~ contains_any (lower text) HAZARDS -> no_duration (lower text) ->
      override_priority text predicted = ok predicted)
  /\ ((exists d, first_duration (lower text) d) \/ no_duration (lower text))
  /\ ((String.length text <= 4300)%nat ->
      exists p, override_priority text predicted = ok p)
  /\ override_priority "5 days" predicted = ok "HIGH"
  /\ override_priority "2 days" predicted = ok predicted.
Proof.
  pose proof (re_search_duration_cases (lower text)) as Hcases.
  split; [|split; [|split; [|split; [|split; [|split; [|split]]]]]];
    try reflexivity.
  - intros H. apply any_in_spec in H. unfold override_priority. fold HAZARDS.
    now rewrite H.
  - intros H d Hd L. apply any_in_false in H.
    unfold override_priority, int_group. fold HAZARDS. rewrite H.
    destruct (first_duration_search _ _ Hd) as (m & -> & ->).
    rewrite (proj1 (int_of_str_cases d) L). cbn [bind ok].
    rewrite Z.geb_leb. now destruct (4 <=? int_digits 0 d)%Z.
  - intros H d Hd L. apply any_in_false in H.
    unfold override_priority, int_group. fold HAZARDS. rewrite H.
    destruct (first_duration_search _ _ Hd) as (m & -> & ->).
    now rewrite (proj2 (int_of_str_cases d) L).
  - intros H Hnone. apply any_in_false in H.
    unfold override_priority. fold HAZARDS. rewrite H.
    destruct (re_search DURATION (lower text)) as [m|]; [|reflexivity].
    destruct Hcases as (i & Hat & _). now destruct (Hnone i (group1 m)).
  - destruct (re_search DURATION (lower text)) as [m|]; [left; eauto | now right].
  - intros L. destruct (override_priority_returns text predicted L) as (p & Hp & _).
    now exists p.
Qed.

(** ** The validator *)

Section Pipeline.
Context {rt : Runtime}.

Lemma member_In (s : string) (l : list string) : member s l = true <-> In s l.
Proof.
  unfold member. rewrite existsb_exists. split.
  - intros (x & Hx & E). apply String.eqb_eq in E. now subst.
  - intros H. exists s. split; [assumption | apply String.eqb_refl].
Qed.

Lemma validate_literal_some (allowed : list string) (v : option pyval) (s : string) :
  validate_literal allowed v = Some s <-> v = Some (PyStr s) /\ In s allowed.
Proof.
  unfold validate_literal. destruct v as [[]|]; try (split; [discriminate | intros [[=] _]]).
  destruct (member s0 allowed) eqn:E.
  - apply member_In in E. split; [intros [= <-]; auto | now intros [[= <-] _]].
  - split; [discriminate|]. intros [[= <-] H]. apply member_In in H. congruence.
Qed.

Lemma validate_literal_none (allowed : list string) (v : option pyval) :
  validate_literal allowed v = None <-> literal_refused allowed v.
Proof.
  unfold literal_refused. split.
  - intros H s -> Hin.
    assert (E : validate_literal allowed (Some (PyStr s)) = Some s)
      by now apply validate_literal_some.
    congruence.
  - intros H. destruct (validate_literal allowed v) as [s|] eqn:E; [|reflexivity].
    apply validate_literal_some in E as [-> Hin]. now destruct (H s eq_refl).
Qed.

Lemma validate_confidence_some (v : option pyval) (f : float) :
  validate_confidence v = Some f <-> validate_float v = Some f /\ in_unit_interval f = true.
Proof.
  unfold validate_confidence. destruct (validate_float v) as [g|].
  - destruct (in_unit_interval g) eqn:E.
    + split; [intros [= <-]; auto | now intros [[= <-] _]].
    + split; [discriminate | intros [[= <-] H]; congruence].
  - split; [discriminate | intros [[=] _]].
Qed.

Lemma validate_confidence_none (v : option pyval) :
  validate_confidence v = None <-> confidence_refused v.
Proof.
  unfold confidence_refused, validate_confidence. destruct (validate_float v) as [g|].
  - destruct (in_unit_interval g) eqn:E.
    + split; [discriminate | intros H; specialize (H g eq_refl); congruence].
    + split; [now intros _ f [= <-] | reflexivity].
  - split; [intros _ f; discriminate | reflexivity].
Qed.

Lemma validate_fields_ok (data : pydict) (r : ClassificationResponse) :
  validate_fields data = ok r <->
  (dict_get "intent" data = Some (PyStr (intent r)) /\ In (intent r) INTENTS)
  /\ (dict_get "department" data = Some (PyStr (department r))
      /\ In (department r) DEPARTMENTS)
  /\ (dict_get "priority" data = Some (PyStr (priority r)) /\ In (priority r) PRIORITIES)
  /\ (validate_float (dict_get "confidence" data) = Some (confidence r)
      /\ in_unit_interval (confidence r) = true).
Proof.
  rewrite <- !validate_literal_some, <- validate_confidence_some.
  unfold validate_fields.
  destruct (validate_literal INTENTS _) as [i|];
    destruct (validate_literal DEPARTMENTS _) as [d|];
    destruct (validate_literal PRIORITIES _) as [p|];
    destruct (validate_confidence _) as [c|];
    (split; [try discriminate | destruct r; cbn; intros ([=] & [=] & [=] & [=]); subst; reflexivity]).
  intros [= <-]. cbn. auto.
Qed.

Lemma validate_fields_error (data : pydict) (e : error) :
  validate_fields data = raise e -> e = ValidationError.
Proof.
  unfold validate_fields.
  destruct (validate_literal INTENTS (dict_get "intent" data)),
    (validate_literal DEPARTMENTS (dict_get "department" data)),
    (validate_literal PRIORITIES (dict_get "priority" data)),
    (validate_confidence (dict_get "confidence" data)); now intros [= <-].
Qed.

(** [validate_float] reads exactly what [confidence_reads] lists. *)
Lemma validate_float_reads (v : option pyval) (f : float) :
  validate_float v = Some f <-> confidence_reads v f.
Proof.
  split.
  - destruct v as [[| [] | | | | |]|]; cbn [validate_float]; try discriminate;
      try (intros [= <-]; constructor); intros H; now constructor.
  - intros [g|z g H| | |s g H]; cbn [validate_float]; trivial.
Qed.

Lemma confidence_rejected_iff (v : option pyval) :
  confidence_rejected v <-> confidence_refused v.
Proof.
  unfold confidence_rejected, confidence_refused.
  split; intros H f Hf; apply H; now apply validate_float_reads.
Qed.

(** C7, amended: the construction from a mapping fails, with a validation
    error, exactly when the intent, the department or the priority is
    missing, is not a string or is a string outside its enumeration, or the
    confidence is missing, is [None], a list or a mapping, or reads as a
    float outside [[0, 1]] (or as no float): a float is read as it is, an
    int through [float], and, under pydantic's default mode, a bool as 1.0
    or 0.0 and a string as what pydantic's parser makes of it.  When the
    construction succeeds the three enumerated fields are the strings that
    were given, never mapped to another value, and the confidence is the
    float that was read. *)
Theorem validation_fails_iff (data : pydict) :
  (validate_fields data = raise ValidationError <->
     literal_refused INTENTS (dict_get "intent" data)
     \/ literal_refused DEPARTMENTS (dict_get "department" data)
     \/ literal_refused PRIORITIES (dict_get "priority" data)
     \/ confidence_rejected (dict_get "confidence" data))
  /\ (forall r, validate_fields data = ok r <->
        (dict_get "intent" data = Some (PyStr (intent r)) /\ intent r = "COMPLAINT")
        /\ (dict_get "department" data = Some (PyStr (department r))
            /\ In (department r) DEPARTMENTS)
        /\ (dict_get "priority" data = Some (PyStr (priority r))
            /\ In (priority r) PRIORITIES)
        /\ (confidence_reads (dict_get "confidence" data) (confidence r)
            /\ in_unit_interval (confidence r) = true))
  /\ (validate_fields data = raise ValidationError \/ exists r, validate_fields data = ok r)
  /\ (dict_get "confidence" data = None -> validate_fields data = raise ValidationError)
  /\ (forall v, dict_get "confidence" data = Some v ->
        v = PyNone \/ (exists l, v = PyList l) \/ (exists d, v = PyDict d) ->
        validate_fields data = raise ValidationError)
  /\ (forall f, dict_get "confidence" data = Some (PyFloat f) ->
        in_unit_interval f = false -> validate_fields data = raise ValidationError).
Proof.
  assert (Hiff : validate_fields data = raise ValidationError <->
     literal_refused INTENTS (dict_get "intent" data)
     \/ literal_refused DEPARTMENTS (dict_get "department" data)
     \/ literal_refused PRIORITIES (dict_get "priority" data)
     \/ confidence_rejected (dict_get "confidence" data)).
  { rewrite confidence_rejected_iff.
    rewrite <- !validate_literal_none, <- validate_confidence_none.
    unfold validate_fields.
    destruct (validate_literal INTENTS (dict_get "intent" data)),
      (validate_literal DEPARTMENTS (dict_get "department" data)),
      (validate_literal PRIORITIES (dict_get "priority" data)),
      (validate_confidence (dict_get "confidence" data));
      split; try discriminate; try tauto;
      intros [H|[H|[H|H]]]; discriminate. }
  assert (Hrejected : confidence_rejected (dict_get "confidence" data) ->
                      validate_fields data = raise ValidationError)
    by (intros H; apply Hiff; tauto).
  split; [exact Hiff|]. split; [|split; [|split; [|split]]].
  - intros r. rewrite validate_fields_ok, <- validate_float_reads.
    assert (Hintent : In (intent r) INTENTS <-> intent r = "COMPLAINT")
      by (simpl; intuition congruence).
    rewrite Hintent. reflexivity.
  - destruct (validate_fields data) as [e|r] eqn:E.
    + left. now rewrite (validate_fields_error _ _ E).
    + right. now exists r.
  - intros Hmissing. apply Hrejected. rewrite Hmissing. intros f Hf. inversion Hf.
  - intros v Hv Hkind. apply Hrejected. rewrite Hv. intros f Hf.
    destruct Hkind as [->|[[l ->]|[d ->]]]; inversion Hf.
  - intros f Hf Hout. apply Hrejected. rewrite Hf. intros g Hg.
    inversion Hg; subst. exact Hout.
Qed.

Lemma init_ok (json_data : pyval) (v : ClassificationResponse) :
  ClassificationResponse_init json_data = ok v ->
  intent v = "COMPLAINT" /\ In (department v) DEPARTMENTS /\ In (priority v) PRIORITIES
  /\ in_unit_interval (confidence v) = true.
Proof.
  destruct json_data; try discriminate. cbn [ClassificationResponse_init].
  intros H. apply validate_fields_ok in H as ((_ & Hi) & (_ & Hd) & (_ & Hp) & (_ & Hc)).
  repeat split; trivial. destruct Hi as [<-|[]]. reflexivity.
Qed.

(** ** The extractor *)

Lemma extract_json_span (text span : string) :
  brace_span text span ->
  extract_json text
  = match json_loads span with Some v => ok v | None => raise ParseError end.
Proof.
  intros (pre & mid & post & -> & -> & Hpre & Hpost). unfold extract_json.
  now rewrite (re_search_braces_span pre mid post Hpre Hpost), group0_braces.
Qed.

Lemma extract_json_none (text : string) :
  no_brace_span text -> extract_json text = raise ExtractionError.
Proof.
  intros Hnone. unfold extract_json.
  pose proof (re_search_braces_cases text) as Hcases.
  destruct (re_search BRACES text) as [m|]; [|reflexivity].
  destruct Hcases as (pre & mid & post & E & _). now destruct (Hnone pre mid post).
Qed.

Lemma brace_span_cases (text : string) :
  (exists span, brace_span text span) \/ no_brace_span text.
Proof.
  pose proof (re_search_braces_cases text) as Hcases.
  destruct (re_search BRACES text) as [m|]; [left; eauto | now right].
Qed.

(** C8: for every raw text, [extract_json] hands to the JSON parser exactly
    the span from the first opening brace to the last closing brace and
    returns what the parser returns, with a parse error when the parser
    refuses the span; it fails with an extraction error when no opening brace
    is followed by a closing brace.  One of the two cases always holds. *)
Theorem extract_json_spec (text : string) :
  (forall span, brace_span text span ->
     extract_json text
     = match json_loads span with Some v => ok v | None => raise ParseError end)
  /\ (no_brace_span text -> extract_json text = raise ExtractionError)
  /\ ((exists span, brace_span text span) \/ no_brace_span text).
Proof.
  split; [exact (extract_json_span text)|].
  split; [exact (extract_json_none text)|].
  apply brace_span_cases.
Qed.

(** ** The orchestrator *)

Lemma fallback_well_formed : well_formed FALLBACK.
Proof.
  exists "OTHER", "MEDIUM", 0.5%float. simpl. repeat split; tauto.
Qed.

Lemma overridden_well_formed (text : string) (v r' : ClassificationResponse)
  (log : list log_event) :
  intent v = "COMPLAINT" -> In (department v) DEPARTMENTS -> In (priority v) PRIORITIES ->
  in_unit_interval (confidence v) = true ->
  apply_overrides text v = ok (r', log) ->
  well_formed (model_dump r').
Proof.
  intros Hi Hd Hp Hc H. apply andb_true_iff in Hc as [Hlo Hhi].
  apply apply_overrides_ok in H as (p & Hpri & -> & _).
  exists (override_department text (department v)), p, (confidence v).
  unfold model_dump. cbn. rewrite Hi. repeat split; trivial.
  - now apply override_department_in.
  - now apply (override_priority_in text (priority v)).
Qed.

(** On a sanitized text the override engine returns. *)
Lemma apply_overrides_sanitized (text : string) (v : ClassificationResponse) :
  exists r' log, apply_overrides (sanitize_input text) v = ok (r', log).
Proof.
  assert (L : (String.length (sanitize_input text) <= 4300)%nat).
  { unfold sanitize_input. rewrite slice_to_length. lia. }
  destruct (override_priority_returns (sanitize_input text) (priority v) L) as (p & Hp & _).
  eexists _, _. apply apply_overrides_ok. exists p. split; [exact Hp|]. split; reflexivity.
Qed.

Lemma enforce_confidence_fields (v : ClassificationResponse) :
  intent (enforce_confidence v) = intent v
  /\ priority (enforce_confidence v) = priority v
  /\ confidence (enforce_confidence v) = confidence v
  /\ (department (enforce_confidence v) = "OTHER"
      \/ department (enforce_confidence v) = department v).
Proof.
  unfold enforce_confidence. destruct (confidence v <? 0.6)%float; cbn; auto.
Qed.

(** What [classify] returns when every stage succeeds. *)
Lemma classify_happy (text : string) (validated : ClassificationResponse) :
  stages_succeed text validated ->
  exists r' log,
    apply_overrides (sanitize_input text) (enforce_confidence validated) = ok (r', log)
    /\ classify text = (model_dump r', log).
Proof.
  intros (raw & span & json_data & Hcall & Hspan & Hjson & Hinit).
  destruct (apply_overrides_sanitized text (enforce_confidence validated))
    as (r' & log & Hover).
  exists r', log. split; [exact Hover|].
  unfold classify, classify_try, gateway. rewrite Hcall. cbn [bind ok].
  rewrite (extract_json_span raw span Hspan), Hjson. cbn [bind ok].
  rewrite Hinit. cbn [bind ok]. now rewrite Hover.
Qed.

(** On every text a stage fails or every stage succeeds. *)
Lemma stages_cases (text : string) :
  (exists e, stage_failure text e) \/ (exists validated, stages_succeed text validated).
Proof.
  destruct (call_ollama (build_prompt (sanitize_input text))) as [raw|] eqn:Hcall.
  - destruct (brace_span_cases raw) as [[span Hspan]|Hnone].
    + destruct (json_loads span) as [json_data|] eqn:Hjson.
      * destruct (ClassificationResponse_init json_data) as [e|v] eqn:Hinit.
        -- left. exists e. now apply (SchemaViolation text raw span json_data).
        -- right. now exists v, raw, span, json_data.
      * left. exists ParseError. now apply (InvalidJson text raw span).
    + left. exists ExtractionError. now apply (NoBraceSpan text raw).
  - left. exists GatewayError. now apply GatewayFails.
Qed.

(** C2: when the gateway call fails, or its text has no brace-delimited
    span, or the span is not JSON, or the parsed value violates the schema,
    [classify] raises nothing: it prints the error and returns the fallback
    as it stands, whatever keywords the text holds. *)
Theorem classify_fallback (text : string) (e : error) :
  stage_failure text e ->
  classify text = (FALLBACK, [ClassifierError e]).
Proof.
  unfold classify, classify_try, gateway.
  intros [Hcall|raw Hcall Hnone|raw span Hcall Hspan Hjson
         |raw span json_data e' Hcall Hspan Hjson Hinit]; rewrite Hcall; cbn [bind ok raise].
  - reflexivity.
  - now rewrite (extract_json_none raw Hnone).
  - now rewrite (extract_json_span raw span Hspan), Hjson.
  - rewrite (extract_json_span raw span Hspan), Hjson. cbn [bind ok]. now rewrite Hinit.
Qed.

(** What the [try] block returns, when it returns. *)
Lemma classify_try_ok (text : string) (r : pydict * list log_event) :
  classify_try text = ok r ->
  exists json_data v r' log,
    ClassificationResponse_init json_data = ok v
    /\ apply_overrides (sanitize_input text) (enforce_confidence v) = ok (r', log)
    /\ r = (model_dump r', log).
Proof.
  unfold classify_try.
  destruct (gateway _) as [e|raw]; [discriminate|]. cbn [bind].
  destruct (extract_json raw) as [e|json_data]; [discriminate|]. cbn [bind].
  destruct (ClassificationResponse_init json_data) as [e|v] eqn:Hinit; [discriminate|].
  cbn [bind]. destruct (apply_overrides _ _) as [e|[r' log]] eqn:E; [discriminate|].
  cbn [bind]. intros [= <-]. now exists json_data, v, r', log.
Qed.

(** C1: for every text, what [classify] returns has exactly the four fields,
    with the intent COMPLAINT, a department and a priority of their
    enumerations and a confidence between 0 and 1, on the validated path and
    on the fallback path alike. *)
Theorem classify_well_formed (text : string) : well_formed (fst (classify text)).
Proof.
  unfold classify. destruct (classify_try text) as [e|r] eqn:E.
  - apply fallback_well_formed.
  - apply classify_try_ok in E as (json_data & v & r' & log & Hinit & Hover & ->).
    apply init_ok in Hinit as (Hi & Hd & Hp & Hc).
    destruct (enforce_confidence_fields v) as (Ei & Ep & Ec & Ed).
    apply (overridden_well_formed (sanitize_input text) (enforce_confidence v) r' log);
      try congruence.
    destruct Ed as [-> | ->]; [simpl; tauto | assumption].
Qed.

(** C5: when the validated result has a confidence below 0.6 (0.59, say),
    what [classify] hands to the override engine is that result with the
    department OTHER and the same intent, priority and confidence; the
    engine returns, and [classify] returns what it returned and printed. *)
Theorem confidence_floor (text : string) (validated : ClassificationResponse) :
  stages_succeed text validated ->
  (confidence validated <? 0.6)%float = true ->
  let floored :=
    {| intent := intent validated; department := "OTHER";
       priority := priority validated; confidence := confidence validated |} in
  enforce_confidence validated = floored
  /\ (exists r' log,
        apply_overrides (sanitize_input text) floored = ok (r', log)
        /\ classify text = (model_dump r', log))
  /\ (0.59 <? 0.6)%float = true.
Proof.
  intros Hv Hlow floored.
  assert (E : enforce_confidence validated = floored).
  { unfold enforce_confidence. now rewrite Hlow. }
  split; [exact E|]. split; [|reflexivity].
  rewrite <- E. now apply classify_happy.
Qed.

End Pipeline.

(** ** The pipeline on the scripted runtime *)

(** C7, as stated, fails: the confidence of this mapping is a string, not a
    number, yet the construction succeeds and converts it to 0.5. *)
Lemma quoted_confidence_accepted :
  @refused_as_claimed test_runtime quoted_confidence
  /\ @validate_fields test_runtime quoted_confidence
     = ok {| intent := "COMPLAINT"; department := "WATER";
             priority := "LOW"; confidence := 0.5 |}
  /\ ~ (@validate_fields test_runtime quoted_confidence = raise ValidationError
        <-> @refused_as_claimed test_runtime quoted_confidence).
Proof.
  assert (Hclaimed : @refused_as_claimed test_runtime quoted_confidence).
  { right. right. right. left. reflexivity. }
  split; [exact Hclaimed|]. split.
  - vm_compute. reflexivity.
  - intros [_ H]. specialize (H Hclaimed). vm_compute in H. discriminate.
Qed.

Lemma classify_fallback_witness :
  @classify test_runtime "transformer on fire" = (FALLBACK, [ClassifierError GatewayError]).
Proof.
  apply (@classify_fallback test_runtime "transformer on fire" GatewayError).
  apply GatewayFails. vm_compute. reflexivity.
Defined.

Lemma confidence_floor_witness :
  @classify test_runtime "  The tap water is brown  "
  = ([("intent", PyStr "COMPLAINT"); ("department", PyStr "WATER");
      ("priority", PyStr "LOW"); ("confidence", PyFloat 0.59)],
     [DepartmentChanged "OTHER" "WATER"]).
Proof.
  assert (Hstages : @stages_succeed test_runtime "  The tap water is brown  "
            {| intent := "COMPLAINT"; department := "WATER"; priority := "LOW";
               confidence := 0.59 |}).
  { exists ("Here is the result: " ++ json_object "WATER" "LOW" "0.59" ++ " Done."),
      (json_object "WATER" "LOW" "0.59"),
      (py_object "WATER" "LOW" (PyFloat 0.59)).
    split; [vm_compute; reflexivity|]. split; [|split; vm_compute; reflexivity].
    exists "Here is the result: ",
      (quoted "intent" ++ ": " ++ quoted "COMPLAINT" ++ ", "
       ++ quoted "department" ++ ": " ++ quoted "WATER" ++ ", "
       ++ quoted "priority" ++ ": " ++ quoted "LOW" ++ ", "
       ++ quoted "confidence" ++ ": 0.59"),
      " Done.".
    repeat split; vm_compute; reflexivity. }
  destruct (proj1 (proj2 (@confidence_floor test_runtime "  The tap water is brown  "
    {| intent := "COMPLAINT"; department := "WATER"; priority := "LOW";
       confidence := 0.59 |} Hstages eq_refl))) as (r' & log & Hover & ->).
  vm_compute in Hover. injection Hover as <- <-. reflexivity.
Defined.

(** The override engine would have changed the fallback on this text; the
    fallback path does not run it. *)
Example fallback_not_overridden :
  fst (@classify test_runtime "transformer on fire") = FALLBACK
  /\ apply_overrides "transformer on fire"
       {| intent := "COMPLAINT"; department := "OTHER";
          priority := "MEDIUM"; confidence := 0.5 |}
     = ok ({| intent := "COMPLAINT"; department := "ELECTRICITY";
              priority := "HIGH"; confidence := 0.5 |},
           [DepartmentChanged "OTHER" "ELECTRICITY"; PriorityChanged "MEDIUM" "HIGH"]).
Proof. split; vm_compute; reflexivity. Qed.

Example classify_without_span :
  @classify test_runtime "Bench is broken" = (FALLBACK, [ClassifierError ExtractionError]).
Proof. vm_compute. reflexivity. Qed.

Example classify_invalid_json :
  @classify test_runtime "Tree fell on the lane" = (FALLBACK, [ClassifierError ParseError]).
Proof. vm_compute. reflexivity. Qed.

Example classify_out_of_enum :
  @classify test_runtime "Noise from the park at night"
  = (FALLBACK, [ClassifierError ValidationError]).
Proof. vm_compute. reflexivity. Qed.

Example classify_validated :
  @classify test_runtime "Stray dogs near the school for 2 days"
  = ([("intent", PyStr "COMPLAINT"); ("department", PyStr "PUBLIC_SAFETY");
      ("priority", PyStr "LOW"); ("confidence", PyFloat 0.9)], []).
Proof. vm_compute. reflexivity. Qed.

Example search_braces :
  option_map group0 (re_search BRACES "ok {a} and {b} done") = Some "{a} and {b}".
Proof. reflexivity. Qed.

Example search_duration :
  option_map group1 (re_search DURATION "for 12  days, then 3 days") = Some "12".
Proof. reflexivity. Qed.

Example first_duration_counts : override_priority "2 days, then 5 days" "LOW" = ok "LOW".
Proof. reflexivity. Qed.

Example hazard_before_duration :
  override_priority "Live Wire down for 2 days" "LOW" = ok "HIGH".
Proof. reflexivity. Qed.

Example electricity_before_sanitation :
  override_department "Garbage piled next to the TRANSFORMER" "OTHER" = "ELECTRICITY".
Proof. reflexivity. Qed.

Example sanitize_trims : sanitize_input "   no water since monday  " = "no water since monday".
Proof. reflexivity. Qed.

Example sanitize_truncates :
  sanitize_input (" " ++ replicate 1500 "a" ++ " ") = replicate 1000 "a".
Proof. vm_compute. reflexivity. Qed.

(** The vocabulary of the theorems is inhabited. *)

Example first_group_sample :
  first_group (lower "Garbage piled next to the TRANSFORMER") DEPARTMENT_GROUPS "ELECTRICITY".
Proof. apply first_group_find. reflexivity. Qed.

Example no_group_sample : no_group (lower "Stray dogs everywhere") DEPARTMENT_GROUPS.
Proof. apply no_group_find. reflexivity. Qed.

Example first_duration_sample : first_duration "no water for 12 days, 3 days ago" "12".
Proof. exact (re_search_duration_cases "no water for 12 days, 3 days ago"). Qed.

Example no_duration_sample : no_duration "no water since monday".
Proof. exact (re_search_duration_cases "no water since monday"). Qed.

Example brace_span_sample : brace_span "ok {a} and {b} done" "{a} and {b}".
Proof. exact (re_search_braces_cases "ok {a} and {b} done"). Qed.

Example no_brace_span_sample : no_brace_span "} closed before { opened".
Proof. exact (re_search_braces_cases "} closed before { opened"). Qed.

(** * Further properties *)

(** ** Trimming and slicing *)

Lemma lstrip_blank (s : string) : all_chars isspace s = true -> lstrip s = "".
Proof.
  induction s as [|c s IH]; simpl; [reflexivity|].
  intros [Hc Hs]%andb_true_iff. rewrite Hc. now apply IH.
Qed.

Lemma rstrip_blank (s : string) : all_chars isspace s = true -> rstrip s = "".
Proof.
  induction s as [|c s IH]; simpl; [reflexivity|].
  intros [Hc Hs]%andb_true_iff. now rewrite (IH Hs), Hc.
Qed.

Lemma lstrip_empty (s : string) : lstrip s = "" -> all_chars isspace s = true.
Proof.
  intros H. destruct (lstrip_spec s) as (l & Hl & Hs).
  rewrite H, str_app_nil_r in Hl. now subst.
Qed.

Lemma lstrip_app_space (l s : string) :
  all_chars isspace l = true -> lstrip (l ++ s) = lstrip s.
Proof.
  induction l as [|c l IH]; simpl; [reflexivity|].
  intros [Hc Hl]%andb_true_iff. rewrite Hc. now apply IH.
Qed.

Lemma rstrip_app_space (s r : string) :
  all_chars isspace r = true -> rstrip (s ++ r) = rstrip s.
Proof.
  intros Hr. induction s as [|c s IH]; simpl.
  - now apply rstrip_blank.
  - now rewrite IH.
Qed.

Lemma lstrip_app (s r : string) : lstrip s <> "" -> lstrip (s ++ r) = lstrip s ++ r.
Proof.
  induction s as [|c s IH]; simpl; [congruence|].
  destruct (isspace c); [assumption | reflexivity].
Qed.

(** Whitespace around a text does not change what [strip] returns. *)
Lemma strip_padding (l s r : string) :
  all_chars isspace l = true -> all_chars isspace r = true ->
  strip (l ++ s ++ r) = strip s.
Proof.
  intros Hl Hr. unfold strip. rewrite (lstrip_app_space l _ Hl).
  destruct (lstrip s) as [|c t] eqn:E.
  - apply lstrip_empty in E.
    rewrite lstrip_blank; [reflexivity|]. now rewrite all_chars_app, E, Hr.
  - rewrite lstrip_app by (rewrite E; discriminate).
    rewrite E. now apply rstrip_app_space.
Qed.

Lemma strip_blank_iff (s : string) : strip s = "" <-> all_chars isspace s = true.
Proof.
  split.
  - intros H. destruct (strip_spec s) as (l & r & E & Hl & Hr).
    rewrite H in E. simpl in E. subst s. now rewrite all_chars_app, Hl, Hr.
  - intros H. unfold strip. now rewrite (lstrip_blank s H).
Qed.

Lemma lstrip_of_head (s : string) :
  (forall c t, s = String c t -> isspace c = false) -> lstrip s = s.
Proof.
  destruct s as [|c t]; [reflexivity|]. intros H. simpl. now rewrite (H c t eq_refl).
Qed.

Lemma rstrip_of_last (s : string) :
  (forall t c, s = t ++ String c "" -> isspace c = false) -> rstrip s = s.
Proof.
  induction s as [|x s IH]; [reflexivity|]. intros H. simpl.
  rewrite IH.
  - destruct s as [|y s]; [|reflexivity]. now rewrite (H "" x eq_refl).
  - intros t c E. apply (H (String x t) c). simpl. now rewrite E.
Qed.

Lemma strip_of_trimmed (s : string) : trimmed s -> strip s = s.
Proof.
  intros [Hhead Hlast]. unfold strip. rewrite (lstrip_of_head s Hhead).
  now apply rstrip_of_last.
Qed.

(** A text that does not end with whitespace survives [rstrip], whatever
    follows it. *)
Lemma rstrip_app_kept (a b : string) :
  (forall t c, a = t ++ String c "" -> isspace c = false) -> a <> "" ->
  exists m, rstrip (a ++ b) = a ++ m.
Proof.
  induction a as [|x a IH]; [congruence|]. intros Hlast _.
  destruct a as [|y a].
  - pose proof (Hlast "" x eq_refl) as Hx. cbn [append rstrip].
    exists (rstrip b). rewrite Hx. now destruct (rstrip b).
  - destruct IH as [m Hm]; [|discriminate|].
    + intros t c E. apply (Hlast (String x t) c). simpl. now rewrite E.
    + exists m. change (String x (String y a) ++ b) with (String x (String y a ++ b)).
      cbn [rstrip]. rewrite Hm. reflexivity.
Qed.

Lemma rstrip_length (s : string) : (String.length (rstrip s) <= String.length s)%nat.
Proof.
  destruct (rstrip_spec s) as (r & E & _).
  rewrite E at 2. rewrite str_length_app. lia.
Qed.

(** [rstrip] keeps the first character of what it returns. *)
Lemma rstrip_head (s : string) (c : ascii) (t : string) :
  rstrip s = String c t -> exists t', s = String c t'.
Proof.
  intros H. destruct (rstrip_spec s) as (r & E & _).
  rewrite H in E. simpl in E. eauto.
Qed.

Lemma slice_to_all (n : nat) (s : string) :
  (String.length s <= n)%nat -> slice_to n s = s.
Proof.
  revert s. induction n as [|n IH]; intros [|c s]; simpl; trivial; try lia.
  intros H. rewrite IH; [reflexivity | lia].
Qed.

Lemma slice_to_app (n : nat) (a b : string) :
  (n <= String.length a)%nat -> slice_to n (a ++ b) = slice_to n a.
Proof.
  revert a. induction n as [|n IH]; intros a H.
  - now destruct a, b.
  - destruct a as [|c a]; simpl in *; [lia|]. rewrite IH; [reflexivity | lia].
Qed.

Lemma slice_to_head (n : nat) (s : string) (c : ascii) (t : string) :
  slice_to n s = String c t -> exists t', s = String c t'.
Proof.
  destruct n, s; simpl; try discriminate. intros [= <- _]. eauto.
Qed.

Lemma sanitize_input_head (text : string) (c : ascii) (t : string) :
  sanitize_input text = String c t -> isspace c = false.
Proof.
  unfold sanitize_input. intros H.
  apply slice_to_head in H as [t' H].
  destruct (strip_trimmed text) as [Hhead _]. now apply (Hhead c t').
Qed.

Lemma sanitize_input_length (text : string) :
  (String.length (sanitize_input text) <= 1000)%nat.
Proof. unfold sanitize_input. rewrite slice_to_length. lia. Qed.

(** ** The sanitizer, further *)

(** X1: whatever the text, the sanitized text is a contiguous part of it,
    has at most 1000 characters and does not begin with a whitespace
    character. *)
Theorem sanitize_input_bounds (text : string) :
  contains text (sanitize_input text)
  /\ (String.length (sanitize_input text) <= 1000)%nat
  /\ forall c t, sanitize_input text = String c t -> isspace c = false.
Proof.
  split; [|split; [apply sanitize_input_length | apply sanitize_input_head]].
  destruct (strip_spec text) as (l & r & E & _).
  destruct (slice_to_prefix 1000 (strip text)) as [rest Hrest].
  exists l, (rest ++ r). rewrite E at 1. rewrite Hrest at 1.
  unfold sanitize_input. now rewrite str_app_assoc.
Qed.

(** X2: the sanitized text is empty exactly when the text consists of
    whitespace (or is empty). *)
Theorem sanitize_input_empty_iff (text : string) :
  sanitize_input text = "" <-> all_chars isspace text = true.
Proof.
  rewrite <- strip_blank_iff. unfold sanitize_input. split.
  - destruct (strip text); [reflexivity | discriminate].
  - now intros ->.
Qed.

(** X3: a text of at most 1000 characters that neither starts nor ends with
    whitespace is returned as it is. *)
Theorem sanitize_input_fixed (text : string) :
  trimmed text -> (String.length text <= 1000)%nat -> sanitize_input text = text.
Proof.
  intros Ht Hlen. unfold sanitize_input.
  rewrite (strip_of_trimmed text Ht). now apply slice_to_all.
Qed.

(** X4: whitespace added before and after a text does not change the
    sanitized text. *)
Theorem sanitize_input_padding (l text r : string) :
  all_chars isspace l = true -> all_chars isspace r = true ->
  sanitize_input (l ++ text ++ r) = sanitize_input text.
Proof.
  intros Hl Hr. unfold sanitize_input. now rewrite strip_padding.
Qed.

(** X5: sanitizing a sanitized text can only remove the whitespace that the
    cut at 1000 characters left at its end; a third pass changes nothing,
    but the second can. *)
Theorem sanitize_input_twice (text : string) :
  sanitize_input (sanitize_input text) = rstrip (sanitize_input text)
  /\ sanitize_input (sanitize_input (sanitize_input text))
     = sanitize_input (sanitize_input text)
  /\ exists long, sanitize_input (sanitize_input long) <> sanitize_input long.
Proof.
  assert (Htwice : forall s, sanitize_input (sanitize_input s) = rstrip (sanitize_input s)).
  { intros s. unfold sanitize_input at 1. unfold strip.
    rewrite (lstrip_of_head _ (sanitize_input_head s)).
    apply slice_to_all.
    pose proof (rstrip_length (sanitize_input s)). pose proof (sanitize_input_length s). lia. }
  split; [apply Htwice|]. split.
  - rewrite (Htwice text). unfold sanitize_input at 1.
    rewrite strip_of_trimmed.
    + apply slice_to_all.
      pose proof (rstrip_length (sanitize_input text)).
      pose proof (sanitize_input_length text). lia.
    + split.
      * intros c t H. apply rstrip_head in H as [t' H].
        now apply (sanitize_input_head text c t').
      * intros t c H. now apply (rstrip_last (sanitize_input text) t c).
  - exists (replicate 999 "a" ++ " b"). vm_compute. discriminate.
Qed.

Lemma sanitize_input_drops_tail (a b : string) :
  trimmed a -> (1000 <= String.length a)%nat ->
  sanitize_input (a ++ b) = slice_to 1000 a.
Proof.
  intros [Hhead Hlast] Hlen. unfold sanitize_input, strip.
  assert (Hne : a <> "") by (destruct a; simpl in Hlen; [lia | discriminate]).
  rewrite lstrip_app by now rewrite (lstrip_of_head a Hhead).
  rewrite (lstrip_of_head a Hhead).
  destruct (rstrip_app_kept a b Hlast Hne) as [m ->]. now apply slice_to_app.
Qed.

(** X6: when a text that neither starts nor ends with whitespace has 1000
    characters or more, nothing appended to it reaches the sanitized text,
    and [classify] returns and prints the same with and without it. *)
Theorem input_beyond_cut_ignored {rt : Runtime} (a b : string) :
  trimmed a -> (1000 <= String.length a)%nat ->
  sanitize_input (a ++ b) = slice_to 1000 a
  /\ classify (a ++ b) = classify a.
Proof.
  intros Ha Hlen. split; [now apply sanitize_input_drops_tail|].
  assert (E : sanitize_input (a ++ b) = sanitize_input a).
  { rewrite (sanitize_input_drops_tail a b Ha Hlen).
    rewrite <- (sanitize_input_drops_tail a "" Ha Hlen). now rewrite str_app_nil_r. }
  unfold classify, classify_try. now rewrite E.
Qed.

Lemma sanitize_input_fixed_witness :
  sanitize_input "no water since monday" = "no water since monday".
Proof.
  apply (sanitize_input_fixed "no water since monday").
  - exact (strip_trimmed "no water since monday").
  - vm_compute. lia.
Defined.

Lemma sanitize_input_padding_witness :
  sanitize_input ("  " ++ "pothole on main street" ++ " ") = sanitize_input "pothole on main street".
Proof.
  apply (sanitize_input_padding "  " "pothole on main street" " "); reflexivity.
Defined.

Lemma input_beyond_cut_ignored_witness :
  sanitize_input (replicate 1000 "a" ++ " transformer on fire")
  = slice_to 1000 (replicate 1000 "a")
  /\ @classify test_runtime (replicate 1000 "a" ++ " transformer on fire")
     = @classify test_runtime (replicate 1000 "a").
Proof.
  apply (@input_beyond_cut_ignored test_runtime (replicate 1000 "a") " transformer on fire").
  - exact (strip_trimmed (replicate 1000 "a")).
  - apply Nat.leb_le. vm_compute. reflexivity.
Defined.

(** ** The override engine, further *)

Lemma lower_char_idem (c : ascii) : lower_char (lower_char c) = lower_char c.
Proof. destruct c as [[] [] [] [] [] [] [] []]; vm_compute; reflexivity. Qed.

Lemma lower_idem (s : string) : lower (lower s) = lower s.
Proof.
  induction s as [|c s IH]; simpl; [reflexivity|]. now rewrite lower_char_idem, IH.
Qed.

(** X7: the overrides read the text through its lowered form only: two texts
    that differ in case alone get the same department and priority, and
    lowering the text beforehand changes nothing. *)
Theorem overrides_ignore_case (text predicted : string) :
  (forall text', lower text' = lower text ->
     override_department text' predicted = override_department text predicted
     /\ override_priority text' predicted = override_priority text predicted)
  /\ override_department (lower text) predicted = override_department text predicted
  /\ override_priority (lower text) predicted = override_priority text predicted.
Proof.
  assert (H : forall text', lower text' = lower text ->
     override_department text' predicted = override_department text predicted
     /\ override_priority text' predicted = override_priority text predicted).
  { intros text' E. unfold override_department, override_priority. now rewrite E. }
  split; [exact H|]. apply H, lower_idem.
Qed.

(** X8: whenever the priority override returns, it returns HIGH or the
    prediction, so it never lowers a priority: from a predicted HIGH it
    returns nothing but HIGH.  It returns on every text of at most 4300
    characters; past that it can only raise the error of [int]. *)
Theorem override_priority_never_lowers (text predicted : string) :
  (override_priority text predicted = ok "HIGH"
   \/ override_priority text predicted = ok predicted
   \/ override_priority text predicted = raise UnexpectedError)
  /\ (forall p, override_priority text "HIGH" = ok p -> p = "HIGH")
  /\ ((String.length text <= 4300)%nat -> override_priority text "HIGH" = ok "HIGH").
Proof.
  split; [|split].
  - destruct (override_priority_cases text predicted) as [H|[H|[H _]]]; auto.
  - intros p H.
    destruct (override_priority_cases text "HIGH") as [E|[E|[E _]]];
      rewrite E in H; now inversion H.
  - intros L.
    destruct (override_priority_returns text "HIGH" L) as (p & -> & [->| ->]); reflexivity.
Qed.

(** X9: the department override returns OTHER only when OTHER was predicted
    and no keyword group matches the lowered text; no rule of its own leads
    to OTHER. *)
Theorem override_department_other_iff (text predicted : string) :
  override_department text predicted = "OTHER"
  <-> predicted = "OTHER" /\ no_group (lower text) DEPARTMENT_GROUPS.
Proof.
  rewrite override_department_find, no_group_find.
  destruct (find _ DEPARTMENT_GROUPS) as [g|] eqn:E.
  - apply find_some in E as [Hin _].
    split; [|intros [_ [=]]].
    simpl in Hin. intuition (subst; discriminate).
  - split; [auto | tauto].
Qed.

(** X10: a completed [apply_overrides] has printed one line for each of the
    two fields it changed and none for a field it left as it was; a printed
    line holds the old and the new value, which differ. *)
Theorem apply_overrides_log (text : string) (r r' : ClassificationResponse)
  (log : list log_event) :
  apply_overrides text r = ok (r', log) ->
  (In (DepartmentChanged (department r) (department r')) log
   <-> department r' <> department r)
  /\ (In (PriorityChanged (priority r) (priority r')) log
      <-> priority r' <> priority r)
  /\ (forall ev, In ev log ->
        (ev = DepartmentChanged (department r) (department r')
         /\ department r' <> department r)
        \/ (ev = PriorityChanged (priority r) (priority r')
            /\ priority r' <> priority r))
  /\ (log = [] <-> r' = r).
Proof.
  intros H. apply apply_overrides_ok in H as (q & _ & -> & ->).
  cbn [department priority intent confidence].
  destruct r as [i d p c]. cbn [department priority intent confidence].
  assert (Hneq : forall x y : string, x <> y -> y <> x) by congruence.
  destruct (String.eqb_spec d (override_department text d)) as [Ed|Ed];
    destruct (String.eqb_spec p q) as [Ep|Ep];
    cbn [app In]; repeat split; intros;
    repeat match goal with
           | H : _ \/ _ |- _ => destruct H
           | H : False |- _ => destruct H
           | H : _ = ?ev |- context [?ev = _] => subst ev
           end;
    try congruence; try tauto; auto 6.
Qed.

Lemma apply_overrides_log_witness :
  (In (DepartmentChanged "OTHER" "ELECTRICITY")
      [DepartmentChanged "OTHER" "ELECTRICITY"; PriorityChanged "MEDIUM" "HIGH"]
   <-> "ELECTRICITY" <> "OTHER")
  /\ ([DepartmentChanged "OTHER" "ELECTRICITY"; PriorityChanged "MEDIUM" "HIGH"] = []
      <-> {| intent := "COMPLAINT"; department := "ELECTRICITY";
             priority := "HIGH"; confidence := 0.5 |}
          = {| intent := "COMPLAINT"; department := "OTHER";
               priority := "MEDIUM"; confidence := 0.5 |}).
Proof.
  pose proof (apply_overrides_log "transformer on fire"
    {| intent := "COMPLAINT"; department := "OTHER";
       priority := "MEDIUM"; confidence := 0.5 |}
    {| intent := "COMPLAINT"; department := "ELECTRICITY";
       priority := "HIGH"; confidence := 0.5 |}
    [DepartmentChanged "OTHER" "ELECTRICITY"; PriorityChanged "MEDIUM" "HIGH"]
    eq_refl) as (Hd & _ & _ & Hnone).
  exact (conj Hd Hnone).
Defined.

(** X11: when no hazard keyword occurs and the first digits of the lowered
    text, at most 4300 of them, are followed by optional whitespace and
    [day], that number decides: HIGH from 4 on, the prediction below. *)
Theorem override_priority_first_number (text predicted pre d ws post : string) :
  ~ contains_any (lower text) HAZARDS ->
  lower text = pre ++ d ++ ws ++ "day" ++ post ->
  free_of isdecimal pre ->
  d <> "" -> all_chars isdecimal d = true -> all_chars isspace ws = true ->
  (String.length d <= 4300)%nat ->
  int_of_str d = Some (int_digits 0 d)
  /\ override_priority text predicted
     = ok (if (4 <=? int_digits 0 d)%Z then "HIGH" else predicted).
Proof.
  intros Hhaz E Hpre Hne Hd Hws Hlen.
  assert (Hfirst : first_duration (lower text) d).
  { exists (String.length pre). split; [now exists pre, ws, post|].
    intros j d' Hj (pre' & ws' & post' & E' & <- & Hne' & Hd' & _).
    rewrite E in E'.
    destruct (split_inside _ _ _ _ E' Hj) as (c & mid & -> & Hsuf).
    apply free_of_app in Hpre as [_ [Hc _]%free_of_cons].
    destruct d' as [|x d']; [congruence|]. simpl in Hsuf, Hd'.
    injection Hsuf as -> _. apply andb_true_iff in Hd' as [Hx _]. congruence. }
  destruct (first_duration_search _ _ Hfirst) as (m & Hm & Hg).
  pose proof (proj1 (int_of_str_cases d) Hlen) as Hint.
  split; [exact Hint|].
  unfold override_priority, int_group. fold HAZARDS.
  apply any_in_false in Hhaz. rewrite Hhaz, Hm, Hg, Hint. cbn [bind ok].
  rewrite Z.geb_leb. now destruct (4 <=? int_digits 0 d)%Z.
Qed.

Lemma override_priority_first_number_witness :
  int_of_str "5" = Some (int_digits 0 "5")
  /\ override_priority "No water for 5 Days" "LOW" = ok "HIGH".
Proof.
  apply (override_priority_first_number "No water for 5 Days" "LOW"
           "no water for " "5" " " "s"); try reflexivity.
  - apply any_in_false. reflexivity.
  - discriminate.
  - vm_compute. lia.
Defined.

(** ** The extractor, further *)

Lemma app_split (a b p q : string) :
  a ++ b = p ++ q -> (String.length a <= String.length p)%nat ->
  exists m, p = a ++ m /\ b = m ++ q.
Proof.
  revert p. induction a as [|x a IH]; intros p E L.
  - now exists p.
  - destruct p as [|y p]; simpl in L; [lia|].
    simpl in E. injection E as <- E.
    destruct (IH p E) as (m & -> & ->); [lia|]. now exists m.
Qed.

(** A text whose closing braces all come before its opening braces has no
    brace-delimited span, and conversely. *)
Lemma no_brace_span_iff (text : string) :
  no_brace_span text
  <-> exists a b, text = a ++ b /\ free_of (is_char "{") a /\ free_of (is_char "}") b.
Proof.
  split.
  - intros Hnone.
    destruct (first_occurrence "{" text) as [Hfree|(pre & rest & -> & Hpre)].
    + exists text, "". now rewrite str_app_nil_r.
    + exists pre, (String "{" rest). repeat split; trivial.
      apply free_of_cons. split; [reflexivity|].
      destruct (last_occurrence "}" rest) as [Hfree|(mid & post & -> & _)]; trivial.
      now destruct (Hnone pre mid post).
  - intros (a & b & -> & Ha & Hb) pre mid post E.
    destruct (Nat.le_gt_cases (String.length a) (String.length pre)) as [L|L].
    + destruct (app_split _ _ _ _ E L) as (m & _ & ->).
      apply free_of_app in Hb as [_ Hb]. cbn [append] in Hb.
      apply free_of_cons in Hb as [_ Hb].
      apply free_of_app in Hb as [_ [Hc _]%free_of_cons]. discriminate.
    + destruct (split_inside _ _ _ _ E L) as (c & m & -> & Hsuf).
      cbn [append] in Hsuf. injection Hsuf as <- _.
      apply free_of_app in Ha as [_ [Hc _]%free_of_cons]. discriminate.
Qed.

Section PipelineFurther.
Context {rt : Runtime}.

(** X12: [extract_json] fails for want of a JSON span exactly on the texts
    that split into a part without opening brace followed by a part without
    closing brace: no brace at all, one kind only, or every closing brace
    before the first opening one. *)
Theorem extract_json_no_span_iff (text : string) :
  extract_json text = raise ExtractionError
  <-> exists a b, text = a ++ b /\ free_of (is_char "{") a /\ free_of (is_char "}") b.
Proof.
  rewrite <- no_brace_span_iff. split; [|apply extract_json_none].
  unfold extract_json. pose proof (re_search_braces_cases text) as Hcases.
  destruct (re_search BRACES text) as [m|]; [|trivial].
  destruct (json_loads (group0 m)); discriminate.
Qed.

(** X13: prose around a JSON object is ignored as long as it brings no brace
    of its own: no opening brace before the object, no closing brace after. *)
Theorem extract_json_ignores_prose (pre mid post : string) :
  free_of (is_char "{") pre -> free_of (is_char "}") post ->
  extract_json (pre ++ "{" ++ mid ++ "}" ++ post) = extract_json ("{" ++ mid ++ "}").
Proof.
  intros Hpre Hpost.
  rewrite (extract_json_span (pre ++ "{" ++ mid ++ "}" ++ post) ("{" ++ mid ++ "}")).
  - symmetry. apply extract_json_span. exists "", mid, "". now repeat split.
  - now exists pre, mid, post.
Qed.

(** ** The validator, further *)

Lemma dict_get_other (k f : string) (v : pyval) (data : pydict) :
  k <> f -> dict_get f ((k, v) :: data) = dict_get f data.
Proof.
  intros H. unfold dict_get. cbn [find fst].
  now destruct (String.eqb_spec k f).
Qed.

(** X14: a key that is not one of the four fields changes nothing: the
    mapping is accepted or refused as without it, and with the same result. *)
Theorem validate_fields_ignores_extra (k : string) (v : pyval) (data : pydict) :
  ~ In k ["intent"; "department"; "priority"; "confidence"] ->
  validate_fields ((k, v) :: data) = validate_fields data.
Proof.
  intros H. unfold validate_fields.
  rewrite !dict_get_other; trivial; intros ->; apply H; simpl; tauto.
Qed.

(** X15: dumping a validated response and constructing a response from the
    dump gives the same response back. *)
Theorem validate_model_dump (data : pydict) (v : ClassificationResponse) :
  validate_fields data = ok v -> validate_fields (model_dump v) = ok v.
Proof.
  intros H. apply validate_fields_ok in H as ((_ & Hi) & (_ & Hd) & (_ & Hp) & (_ & Hc)).
  apply validate_fields_ok. now repeat split.
Qed.

Lemma well_formed_validates (r : pydict) :
  well_formed r -> exists v, validate_fields r = ok v /\ model_dump v = r.
Proof.
  intros (d & p & c & -> & Hd & Hp & Hlo & Hhi).
  exists {| intent := "COMPLAINT"; department := d; priority := p; confidence := c |}.
  split; [|reflexivity]. apply validate_fields_ok. cbn.
  repeat split; trivial; [tauto|]. unfold in_unit_interval. now rewrite Hlo, Hhi.
Qed.

(** ** The orchestrator, further *)

Lemma classify_try_failure (text : string) (e : error) :
  stage_failure text e -> classify_try text = raise e.
Proof.
  unfold classify_try, gateway.
  intros [Hcall|raw Hcall Hnone|raw span Hcall Hspan Hjson
         |raw span json_data e' Hcall Hspan Hjson Hinit]; rewrite Hcall; cbn [bind ok raise].
  - reflexivity.
  - now rewrite (extract_json_none raw Hnone).
  - now rewrite (extract_json_span raw span Hspan), Hjson.
  - rewrite (extract_json_span raw span Hspan), Hjson. cbn [bind ok]. now rewrite Hinit.
Qed.

(** The two ways [classify] returns. *)
Lemma classify_cases (text : string) :
  (exists e, stage_failure text e /\ classify text = (FALLBACK, [ClassifierError e]))
  \/ (exists v r' log,
        stages_succeed text v
        /\ apply_overrides (sanitize_input text) (enforce_confidence v) = ok (r', log)
        /\ classify text = (model_dump r', log)).
Proof.
  destruct (stages_cases text) as [[e He]|[v Hv]].
  - left. exists e. split; trivial. unfold classify. now rewrite (classify_try_failure text e He).
  - right. destruct (classify_happy text v Hv) as (r' & log & Hover & E).
    now exists v, r', log.
Qed.

Lemma happy_well_formed (text : string) (v r' : ClassificationResponse)
  (log : list log_event) :
  stages_succeed text v ->
  apply_overrides (sanitize_input text) (enforce_confidence v) = ok (r', log) ->
  well_formed (model_dump r').
Proof.
  intros (raw & span & json_data & _ & _ & _ & Hinit) Hover.
  apply init_ok in Hinit as (Hi & Hd & Hp & Hc).
  destruct (enforce_confidence_fields v) as (Ei & Ep & Ec & Ed).
  apply (overridden_well_formed (sanitize_input text) (enforce_confidence v) r' log);
    try congruence.
  destruct Ed as [-> | ->]; [simpl; tauto | assumption].
Qed.

(** X16: what [classify] returns is always accepted by the schema of its
    own response: constructing a [ClassificationResponse] from it succeeds
    and dumps to the same mapping. *)
Theorem classify_result_validates (text : string) :
  exists v, validate_fields (fst (classify text)) = ok v
            /\ model_dump v = fst (classify text).
Proof.
  apply well_formed_validates.
  destruct (classify_cases text) as [(e & _ & ->)|(v & r' & log & Hv & Hover & ->)];
    cbn [fst].
  - apply fallback_well_formed.
  - now apply (happy_well_formed text v r' log).
Qed.

Lemma model_dump_fields (v : ClassificationResponse) :
  dict_get "intent" (model_dump v) = Some (PyStr (intent v))
  /\ dict_get "department" (model_dump v) = Some (PyStr (department v))
  /\ dict_get "priority" (model_dump v) = Some (PyStr (priority v))
  /\ dict_get "confidence" (model_dump v) = Some (PyFloat (confidence v)).
Proof. now repeat split. Qed.

(** X17: on the validated path the result holds the intent COMPLAINT, the
    confidence of the validated response and the overridden priority; its
    department is that of the first keyword group matching the sanitized
    text, whatever the confidence, and without a matching group it is OTHER
    below 0.6 and the validated department from 0.6 on. *)
Theorem classify_fields (text : string) (v : ClassificationResponse) :
  stages_succeed text v ->
  let clean := sanitize_input text in
  let result := fst (classify text) in
  dict_get "intent" result = Some (PyStr "COMPLAINT")
  /\ dict_get "confidence" result = Some (PyFloat (confidence v))
  /\ (exists p, override_priority clean (priority v) = ok p
                /\ dict_get "priority" result = Some (PyStr p))
  /\ (forall d, first_group (lower clean) DEPARTMENT_GROUPS d ->
        dict_get "department" result = Some (PyStr d))
  /\ (no_group (lower clean) DEPARTMENT_GROUPS ->
      dict_get "department" result
      = Some (PyStr (if (confidence v <? 0.6)%float then "OTHER" else department v))).
Proof.
  intros Hv clean result. subst result.
  destruct (classify_happy text v Hv) as (r' & log & Hover & ->). fold clean in Hover.
  cbn [fst].
  destruct Hv as (raw & span & json_data & _ & _ & _ & Hinit).
  apply init_ok in Hinit as (Hi & _).
  destruct (enforce_confidence_fields v) as (Ei & Ep & Ec & _).
  destruct (model_dump_fields r') as (-> & -> & -> & ->).
  apply apply_overrides_ok in Hover as (p & Hp & -> & _).
  cbn [department priority intent confidence].
  rewrite Ei, Ec, Hi, override_department_find. rewrite Ep in Hp.
  split; [reflexivity|]. split; [reflexivity|]. split; [now exists p|]. split.
  - intros d Hd. apply first_group_find in Hd.
    destruct (find _ DEPARTMENT_GROUPS); simpl in Hd; congruence.
  - intros Hnone. apply no_group_find in Hnone. rewrite Hnone.
    unfold enforce_confidence. now destruct (confidence v <? 0.6)%float.
Qed.

(** X18: whitespace before and after the text changes neither the result nor
    what is printed. *)
Theorem classify_padding (l text r : string) :
  all_chars isspace l = true -> all_chars isspace r = true ->
  classify (l ++ text ++ r) = classify text.
Proof.
  intros Hl Hr. unfold classify, classify_try, sanitize_input.
  now rewrite (strip_padding l text r Hl Hr).
Qed.



(** X20: the prompt sent to the gateway is the fixed instruction, the label
    and the sanitized text: at most 1424 characters, whatever the length of
    the complaint. *)
Theorem prompt_bounded (text : string) :
  String.length (build_prompt (sanitize_input text))
  = (424 + String.length (sanitize_input text))%nat
  /\ (String.length (build_prompt (sanitize_input text)) <= 1424)%nat.
Proof.
  assert (E : String.length (build_prompt (sanitize_input text))
              = (424 + String.length (sanitize_input text))%nat).
  { unfold build_prompt. rewrite !str_length_app.
    change (String.length SYSTEM_PROMPT) with 412%nat.
    change (String.length NL) with 1%nat.
    change (String.length "Complaint: ") with 11%nat. lia. }
  split; [exact E|]. rewrite E. pose proof (sanitize_input_length text). lia.
Qed.

(** X23: the handler of [/classify] answers every request with what
    [classify] returns for its text, a mapping with the four fields in
    their domains, and prints that answer after what [classify] printed. *)
Theorem classify_complaint_response (request : Main.ComplaintRequest) :
  fst (Main.classify_complaint request) = fst (classify (Main.text request))
  /\ well_formed (fst (Main.classify_complaint request))
  /\ snd (Main.classify_complaint request)
     = (map Main.Printed (snd (classify (Main.text request)))
        ++ [Main.ClassificationResult (fst (Main.classify_complaint request))])%list.
Proof.
  unfold Main.classify_complaint.
  destruct (classify_cases (Main.text request))
    as [(e & _ & ->)|(v & r' & log & Hv & Hover & ->)];
    cbn [fst snd]; repeat split.
  - apply fallback_well_formed.
  - now apply (happy_well_formed (Main.text request) v r' log).
Qed.

End PipelineFurther.

(** ** The gateway over HTTP *)

Section Gateway.
Context {t : Transport}.
Variable loads : string -> option pyval.
Variable parse : string -> option float.

(** X21: [call_ollama] yields a completion exactly when the request returns,
    the status is neither 4xx nor 5xx, the body decodes to a mapping and the
    mapping has the key [response]; the completion is the value of that
    key. *)
Theorem call_ollama_http_some (prompt : string) (v : pyval) :
  call_ollama_http prompt = Some v
  <-> exists r d,
        requests_post OLLAMA_URL (payload prompt) 10 = Some r
        /\ (status_code r < 400 \/ 600 <= status_code r)%Z
        /\ response_json (response_text r) = Some (PyDict d)
        /\ dict_get "response" d = Some v.
Proof.
  unfold call_ollama_http, is_error_status. split.
  - destruct (requests_post _ _ _) as [r|]; [|discriminate].
    destruct (400 <=? status_code r)%Z eqn:Hlo, (status_code r <? 600)%Z eqn:Hhi;
      cbn [andb]; try discriminate;
      (destruct (response_json _) as [[]|] eqn:Hj; try discriminate;
       intros Hget; exists r, d; repeat split; trivial; lia).
  - intros (r & d & -> & Hs & -> & Hget).
    destruct (400 <=? status_code r)%Z eqn:Hlo, (status_code r <? 600)%Z eqn:Hhi;
      cbn [andb subscript]; trivial; lia.
Qed.

(** X22: when the request raises, or the status is 4xx or 5xx, or the body
    does not decode, or it decodes to a mapping without the key [response],
    [classify] returns the fallback and prints the gateway error. *)
Theorem classify_gateway_failure (text : string) :
  let prompt := build_prompt (sanitize_input text) in
  requests_post OLLAMA_URL (payload prompt) 10 = None
  \/ (exists r, requests_post OLLAMA_URL (payload prompt) 10 = Some r
                /\ (400 <= status_code r < 600)%Z)
  \/ (exists r, requests_post OLLAMA_URL (payload prompt) 10 = Some r
                /\ response_json (response_text r) = None)
  \/ (exists r d, requests_post OLLAMA_URL (payload prompt) 10 = Some r
                  /\ response_json (response_text r) = Some (PyDict d)
                  /\ dict_get "response" d = None) ->
  @classify (http_runtime t loads parse) text = (FALLBACK, [ClassifierError GatewayError]).
Proof.
  intros prompt H.
  assert (Hnone : call_ollama_http prompt = None).
  { unfold call_ollama_http, is_error_status.
    destruct H as [->|[(r & -> & Hs)|[(r & -> & Hj)|(r & d & -> & Hj & Hget)]]]; trivial.
    - destruct (400 <=? status_code r)%Z eqn:Hlo, (status_code r <? 600)%Z eqn:Hhi;
        cbn [andb]; trivial; lia.
    - rewrite Hj. now destruct (_ && _).
    - rewrite Hj. cbn [subscript]. rewrite Hget. now destruct (_ && _). }
  unfold classify, classify_try, gateway. cbn [call_ollama http_runtime].
  fold prompt. now rewrite Hnone.
Qed.

End Gateway.

(** ** The further properties on the scripted runtime *)

Lemma tap_water_stages :
  @stages_succeed test_runtime "  The tap water is brown  "
    {| intent := "COMPLAINT"; department := "WATER"; priority := "LOW";
       confidence := 0.59 |}.
Proof.
  exists ("Here is the result: " ++ json_object "WATER" "LOW" "0.59" ++ " Done."),
    (json_object "WATER" "LOW" "0.59"),
    (py_object "WATER" "LOW" (PyFloat 0.59)).
  split; [vm_compute; reflexivity|]. split; [|split; vm_compute; reflexivity].
  exact (re_search_braces_cases
           ("Here is the result: " ++ json_object "WATER" "LOW" "0.59" ++ " Done.")).
Qed.

Lemma extract_json_ignores_prose_witness :
  @extract_json test_runtime ("Sure: " ++ "{" ++ "a" ++ "}" ++ " Done.")
  = @extract_json test_runtime ("{" ++ "a" ++ "}").
Proof.
  apply (@extract_json_ignores_prose test_runtime "Sure: " "a" " Done."); reflexivity.
Defined.

Lemma validate_fields_ignores_extra_witness :
  @validate_fields test_runtime (("explanation", PyStr "a water issue") :: quoted_confidence)
  = @validate_fields test_runtime quoted_confidence.
Proof.
  apply (@validate_fields_ignores_extra test_runtime "explanation").
  simpl. intros [H|[H|[H|[H|[]]]]]; discriminate.
Defined.

Lemma validate_model_dump_witness :
  @validate_fields test_runtime
    (model_dump {| intent := "COMPLAINT"; department := "WATER";
                   priority := "LOW"; confidence := 0.5 |})
  = ok {| intent := "COMPLAINT"; department := "WATER"; priority := "LOW";
          confidence := 0.5 |}.
Proof.
  apply (@validate_model_dump test_runtime quoted_confidence).
  vm_compute. reflexivity.
Defined.

Lemma classify_fields_witness :
  dict_get "department" (fst (@classify test_runtime "  The tap water is brown  "))
  = Some (PyStr "WATER").
Proof.
  refine (proj1 (proj2 (proj2 (proj2
    (@classify_fields test_runtime "  The tap water is brown  " _ tap_water_stages)))) _ _).
  apply first_group_find. reflexivity.
Defined.

Lemma classify_padding_witness :
  @classify test_runtime ("  " ++ "The tap water is brown" ++ "  ")
  = @classify test_runtime "The tap water is brown".
Proof.
  apply (@classify_padding test_runtime "  " "The tap water is brown" "  "); reflexivity.
Defined.

Lemma classify_gateway_failure_witness :
  @classify (http_runtime (fixed_transport (Some unavailable) test_bodies)
               (fun s => dict_get s test_table) decimal_as_float)
    "Street light is out"
  = (FALLBACK, [ClassifierError GatewayError]).
Proof.
  apply (@classify_gateway_failure (fixed_transport (Some unavailable) test_bodies)).
  right. left. exists unavailable. split; [reflexivity|]. simpl. lia.
Defined.

Example classify_over_http :
  fst (@classify (http_runtime (fixed_transport (Some reply_with_completion) test_bodies)
                    (fun s => if String.eqb s (json_object "ROADS" "MEDIUM" "0.8")
                              then Some (py_object "ROADS" "MEDIUM" (PyFloat 0.8))
                              else None)
                    decimal_as_float)
         "Pothole on main street for 6 days")
  = [("intent", PyStr "COMPLAINT"); ("department", PyStr "ROADS");
     ("priority", PyStr "HIGH"); ("confidence", PyFloat 0.8)].
Proof. vm_compute. reflexivity. Qed.

Example classify_reply_without_response :
  @classify (http_runtime (fixed_transport (Some reply_without_response) test_bodies)
               (fun _ => None) decimal_as_float)
    "Pothole on main street"
  = (FALLBACK, [ClassifierError GatewayError]).
Proof. vm_compute. reflexivity. Qed.
